(** * Automation-for-DLL-Exports

    A shallow embedding of the two scripts of the repository,
    [read_config.py] (the configuration lookup) and [scanner.py] (the
    export scanner), and the properties of them that the specification
    states.

    Conventions of the embedding.
    - A Python [str] is a Rocq [string], one [ascii] per character: the
      texts considered are those whose characters have code points below
      256.  The character classes ([isspace], [\w], [isprintable], ...)
      are CPython's Unicode classes restricted to that range.
    - A Python [int] is a [Z].  [int()] refuses a text of more than
      [Py.max_str_digits] digits, as the interpreter does by default.
    - Library calls ([re], [argparse], [json], [print]) are embedded by
      their behaviour in CPython 3.11 on the arguments the scripts give
      them. *)

From stdpp Require Import gmap strings list.
From Stdlib Require Import ZArith NArith Ascii String.
From Stdlib Require Import DecimalString DecimalPos DecimalZ Lia.

Open Scope string_scope.
Open Scope list_scope.

(* ================================================================= *)
(** ** Python built-ins on text and integers *)

Module Py.

Definition nl : ascii := "010"%char.
Definition dquote : ascii := "034"%char.
Definition squote : ascii := "039"%char.
Definition backslash : ascii := "092"%char.

Definition ord (c : ascii) : N := N_of_ascii c.

Definition between (lo hi : N) (c : ascii) : bool :=
  ((lo <=? ord c) && (ord c <=? hi))%N.

Definition code_is (n : N) (c : ascii) : bool := (ord c =? n)%N.

(** [str.isspace], which is also the class [\s] of [re] on [str]
    patterns. *)
Definition isspace (c : ascii) : bool :=
  between 9 13 c || between 28 32 c || code_is 133 c || code_is 160 c.

(** Decimal digits, the class [\d]. *)
Definition isdecimal (c : ascii) : bool := between 48 57 c.

(** [str.isalnum]: letters, decimal digits and the other numeric
    characters (superscripts and vulgar fractions below 256). *)
Definition isalnum (c : ascii) : bool :=
  between 48 57 c || between 65 90 c || between 97 122 c
  || code_is 170 c || between 178 179 c || code_is 181 c || between 185 186 c
  || between 188 190 c || between 192 214 c || between 216 246 c
  || between 248 255 c.

(** The class [\w]. *)
Definition isword (c : ascii) : bool := isalnum c || code_is 95 c.

(** [str.isprintable]. *)
Definition isprintable (c : ascii) : bool :=
  between 32 126 c || between 161 172 c || between 174 255 c.

(** [s.strip()] *)
Fixpoint lstrip (s : string) : string :=
  match s with
  | String c s' => if isspace c then lstrip s' else s
  | EmptyString => EmptyString
  end.

Fixpoint rstrip (s : string) : string :=
  match s with
  | EmptyString => EmptyString
  | String c s' =>
      match rstrip s' with
      | EmptyString => if isspace c then EmptyString else String c EmptyString
      | r => String c r
      end
  end.

Definition strip (s : string) : string := rstrip (lstrip s).

(** The text does not start with white space. *)
Definition head_ok (s : string) : bool :=
  match s with
  | String c _ => negb (isspace c)
  | EmptyString => true
  end.

(** [sub in s] on two strings *)
Fixpoint startswith (p s : string) : bool :=
  match p, s with
  | EmptyString, _ => true
  | String a p', String b s' => Ascii.eqb a b && startswith p' s'
  | String _ _, EmptyString => false
  end.

Fixpoint substring_of (p s : string) : bool :=
  startswith p s ||
  match s with
  | String _ s' => substring_of p s'
  | EmptyString => false
  end.

Fixpoint has_char (a : ascii) (s : string) : bool :=
  match s with
  | String b s' => Ascii.eqb a b || has_char a s'
  | EmptyString => false
  end.

Fixpoint all_chars (p : ascii -> bool) (s : string) : bool :=
  match s with
  | String b s' => p b && all_chars p s'
  | EmptyString => true
  end.

(** [str(n)] for an [int] *)
Definition str_int (z : Z) : string := NilEmpty.string_of_int (Z.to_int z).
Definition str_nat (n : nat) : string := NilEmpty.string_of_uint (Nat.to_uint n).

(** [int(s)] for a [str], base ten.  White space is skipped on both
    sides (the characters 28 to 31 are spaces for [isspace] but not for
    [int]), one sign may follow, then digits, where single underscores
    may stand between two digits.  [None] is [ValueError]. *)
Definition int_space (c : ascii) : bool :=
  between 9 13 c || code_is 32 c || code_is 133 c || code_is 160 c.

Fixpoint int_lskip (s : string) : string :=
  match s with
  | String c s' => if int_space c then int_lskip s' else s
  | EmptyString => EmptyString
  end.

Fixpoint int_rskip (s : string) : string :=
  match s with
  | EmptyString => EmptyString
  | String c s' =>
      match int_rskip s' with
      | EmptyString => if int_space c then EmptyString else String c EmptyString
      | r => String c r
      end
  end.

Definition digit (c : ascii) : option (Decimal.uint -> Decimal.uint) :=
  match ord c with
  | 48 => Some Decimal.D0 | 49 => Some Decimal.D1 | 50 => Some Decimal.D2
  | 51 => Some Decimal.D3 | 52 => Some Decimal.D4 | 53 => Some Decimal.D5
  | 54 => Some Decimal.D6 | 55 => Some Decimal.D7 | 56 => Some Decimal.D8
  | 57 => Some Decimal.D9
  | _ => None
  end%N.

Fixpoint digits (after_digit : bool) (s : string) : option Decimal.uint :=
  match s with
  | EmptyString => if after_digit then Some Decimal.Nil else None
  | String c s' =>
      if code_is 95 c then (if after_digit then digits false s' else None)
      else match digit c with
           | Some d => option_map d (digits true s')
           | None => None
           end
  end.

(** The interpreter's limit on the digits of a text that [int()]
    converts ([sys.get_int_max_str_digits()], by default): leading
    zeros count, the sign, the underscores and the white space around
    the number do not. *)
Definition max_str_digits : nat := 4300.

Definition within_limit (d : Decimal.uint) : option Decimal.uint :=
  if (Decimal.nb_digits d <=? max_str_digits)%nat then Some d else None.

(** The digits of the number, sign apart *)
Definition digits_checked (s : string) : option Decimal.uint :=
  match digits false s with
  | Some d => within_limit d
  | None => None
  end.

Definition int (s : string) : option Z :=
  match int_rskip (int_lskip s) with
  | String c s' =>
      if code_is 43 c then option_map Z.of_uint (digits_checked s')
      else if code_is 45 c then option_map (fun d => (- Z.of_uint d)%Z) (digits_checked s')
      else option_map Z.of_uint (digits_checked (String c s'))
  | EmptyString => None
  end.

(** The number of digits of [str(z)] *)
Definition int_digits (z : Z) : nat :=
  match Z.to_int z with
  | Decimal.Pos d | Decimal.Neg d => Decimal.nb_digits d
  end.

(** [repr(s)] for a [str]: single quotes unless the text has a single
    quote and no double quote; backslash, the quote, tab, newline and
    carriage return escaped; the other non-printable characters as
    [\xhh]. *)
Definition hex_digit (n : N) : ascii :=
  if (n <? 10)%N then ascii_of_N (48 + n) else ascii_of_N (87 + n).

Definition hex2 (c : ascii) : string :=
  String (hex_digit (ord c / 16)) (String (hex_digit (ord c mod 16)) EmptyString).

Definition repr_quote (s : string) : ascii :=
  if has_char squote s && negb (has_char dquote s) then dquote else squote.

Definition repr_char (q c : ascii) : string :=
  if Ascii.eqb c q || Ascii.eqb c backslash then String backslash (String c EmptyString)
  else if code_is 9 c then String backslash "t"
  else if code_is 10 c then String backslash "n"
  else if code_is 13 c then String backslash "r"
  else if isprintable c then String c EmptyString
  else String backslash ("x" +:+ hex2 c).

Fixpoint repr_chars (q : ascii) (s : string) : string :=
  match s with
  | String c s' => repr_char q c +:+ repr_chars q s'
  | EmptyString => EmptyString
  end.

Definition repr_str (s : string) : string :=
  let q := repr_quote s in
  String q (repr_chars q s +:+ String q EmptyString).

End Py.

(* ================================================================= *)
(** ** Decoded JSON values, [print] and [json.dump] *)

(** What [json.load] returns: [None], [bool], [int], [float], [str],
    [list] and [dict] (with [str] keys, in the order of the document;
    the keys of a decoded object are distinct).  A [float] is carried
    by its [repr], the only thing the scripts do with one.  An [int]
    of a decoded document has no more than [Py.max_str_digits] digits:
    [json.load] raises on a longer one. *)
#[local] Set Warnings "-register-all".
Inductive value : Type :=
| VNone
| VBool (b : bool)
| VInt (z : Z)
| VFloat (repr : string)
| VStr (s : string)
| VList (l : list value)
| VDict (d : list (string * value)).

Module Value.

(** [repr(v)] *)
Fixpoint repr (v : value) : string :=
  match v with
  | VNone => "None"
  | VBool true => "True"
  | VBool false => "False"
  | VInt z => Py.str_int z
  | VFloat r => r
  | VStr s => Py.repr_str s
  | VList l => "[" +:+ String.concat ", " (List.map repr l) +:+ "]"
  | VDict d =>
      "{" +:+ String.concat ", "
                (List.map (fun '(k, x) => Py.repr_str k +:+ ": " +:+ repr x) d)
          +:+ "}"
  end.

(** [str(v)], the text [print(v)] writes before the newline. *)
Definition str (v : value) : string :=
  match v with
  | VStr s => s
  | _ => repr v
  end.

(** [d.get(k)] on the items of a [dict] *)
Fixpoint lookup (k : string) (d : list (string * value)) : option value :=
  match d with
  | [] => None
  | (k', x) :: d' => if String.eqb k k' then Some x else lookup k d'
  end.

End Value.

Module Json.

(** A string of a JSON document as [json.dump] writes it with its
    default [ensure_ascii]: everything outside the printable ASCII
    characters is escaped. *)
Definition encode_char (c : ascii) : string :=
  if Ascii.eqb c Py.dquote || Ascii.eqb c Py.backslash
  then String Py.backslash (String c EmptyString)
  else if Py.code_is 10 c then String Py.backslash "n"
  else if Py.code_is 13 c then String Py.backslash "r"
  else if Py.code_is 9 c then String Py.backslash "t"
  else if Py.code_is 8 c then String Py.backslash "b"
  else if Py.code_is 12 c then String Py.backslash "f"
  else if Py.between 32 126 c then String c EmptyString
  else String Py.backslash ("u00" +:+ Py.hex2 c).

Fixpoint encode_chars (s : string) : string :=
  match s with
  | String c s' => encode_char c +:+ encode_chars s'
  | EmptyString => EmptyString
  end.

Definition encode_str (s : string) : string :=
  String Py.dquote (encode_chars s +:+ String Py.dquote EmptyString).

Definition encode_float (r : string) : string :=
  if String.eqb r "nan" then "NaN"
  else if String.eqb r "inf" then "Infinity"
  else if String.eqb r "-inf" then "-Infinity"
  else r.

Fixpoint spaces (n : nat) : string :=
  match n with
  | O => EmptyString
  | S n' => String " " (spaces n')
  end.

(** With [indent], every item starts on a line of its own, indented
    by [indent] spaces per level of nesting. *)
Definition newline_indent (indent : option nat) (level : nat) : string :=
  match indent with
  | Some n => String Py.nl (spaces (n * level))
  | None => EmptyString
  end.

(** Between two items: a comma and a space without [indent]; with
    [indent], a comma and the new line. *)
Definition item_separator (indent : option nat) (level : nat) : string :=
  match indent with
  | Some _ => "," +:+ newline_indent indent level
  | None => ", "
  end.

(** [json.dumps(v, indent=indent)], at nesting depth [level]. *)
Fixpoint encode (indent : option nat) (level : nat) (v : value) : string :=
  match v with
  | VNone => "null"
  | VBool true => "true"
  | VBool false => "false"
  | VInt z => Py.str_int z
  | VFloat r => encode_float r
  | VStr s => encode_str s
  | VList [] => "[]"
  | VList l =>
      "[" +:+ newline_indent indent (S level)
          +:+ String.concat (item_separator indent (S level))
                (List.map (encode indent (S level)) l)
          +:+ newline_indent indent level +:+ "]"
  | VDict [] => "{}"
  | VDict d =>
      "{" +:+ newline_indent indent (S level)
          +:+ String.concat (item_separator indent (S level))
                (List.map (fun '(k, x) =>
                             encode_str k +:+ ": " +:+ encode indent (S level) x) d)
          +:+ newline_indent indent level +:+ "}"
  end.

Definition dumps (indent : option nat) (v : value) : string := encode indent 0 v.

(** A value without a [float] in it, as the report of scanner.py is. *)
Fixpoint float_free (v : value) : bool :=
  match v with
  | VFloat _ => false
  | VList l => forallb float_free l
  | VDict d => forallb (fun '(_, x) => float_free x) d
  | _ => true
  end.

(** The printable ASCII characters and the newline. *)
Definition plain (c : ascii) : bool := Py.between 32 126 c || Py.code_is 10 c.

End Json.

(* ================================================================= *)
(** ** Processes: standard output, files, and how a script ends *)

Inductive exn : Type :=
| RuntimeError (msg : string)
| ValueError
| TypeError
| KeyError (key : string)
| OSError (path : string)
| JSONDecodeError.

(** How a run ends.  [SystemExit] is [sys.exit(code)], and the end of
    the script with code 0; [UsageError] is [parser.error], which
    writes the usage line and a message to standard error; [HelpExit]
    is the help action of [argparse], which writes the help text (not
    modelled) to standard output; [Uncaught] is an exception nobody
    handles. *)
Inductive termination : Type :=
| SystemExit (code : Z)
| UsageError
| HelpExit
| Uncaught (e : exn).

Definition exit_code (t : termination) : Z :=
  match t with
  | SystemExit code => code
  | UsageError => 2
  | HelpExit => 0
  | Uncaught _ => 1
  end.

(** What the interpreter or [argparse] writes to standard error. *)
Inductive diagnostic : Type :=
| Silent
| UsageMessage
| Traceback (e : exn).

Definition stderr (t : termination) : diagnostic :=
  match t with
  | SystemExit _ => Silent
  | UsageError => UsageMessage
  | HelpExit => Silent
  | Uncaught e => Traceback e
  end.

(** The part of the world a script touches: the text written to
    standard output so far, the text files that can be opened for
    reading (by the path given to [open], with the text [read] returns)
    and the paths that cannot be opened for writing.  Every file is a
    UTF-8 text: a path that is not in [files] is one that [open]
    refuses, and a file that opens but does not decode is not among the
    worlds described. *)
Record process : Type := Process {
  stdout : string;
  files : gmap string string;
  unwritable : gset string
}.

Definition script (A : Type) : Type := process -> process * (termination + A).

Definition ret {A} (a : A) : script A := fun p => (p, inr a).

Definition bind {A B} (m : script A) (f : A -> script B) : script B :=
  fun p =>
    match m p with
    | (p', inl t) => (p', inl t)
    | (p', inr a) => f a p'
    end.

Definition stop {A} (t : termination) : script A := fun p => (p, inl t).

Definition raise {A} (e : exn) : script A := stop (Uncaught e).

Definition sys_exit {A} (code : Z) : script A := stop (SystemExit code).

Definition lift {A} (r : exn + A) : script A :=
  match r with
  | inl e => raise e
  | inr a => ret a
  end.

#[global] Instance script_ret : MRet script := @ret.
#[global] Instance script_bind : MBind script := fun A B f m => bind m f.

(** [print(s)] *)
Definition print (s : string) : script unit :=
  fun p => (Process (stdout p +:+ s +:+ String Py.nl EmptyString) (files p) (unwritable p),
            inr tt).

(** [open(path, 'r').read()] *)
Definition read_text (path : string) : script string :=
  fun p =>
    match files p !! path with
    | Some text => (p, inr text)
    | None => (p, inl (Uncaught (OSError path)))
    end.

(** [open(path, 'w')] followed by the writing of [text] *)
Definition write_text (path text : string) : script unit :=
  fun p =>
    if decide (path ∈ unwritable p) then (p, inl (Uncaught (OSError path)))
    else (Process (stdout p) (<[path := text]> (files p)) (unwritable p), inr tt).

(** [for x in l: body(x)] *)
Fixpoint for_each {A} (l : list A) (body : A -> script unit) : script unit :=
  match l with
  | [] => ret tt
  | x :: l' => body x;; for_each l' body
  end.

(** A whole run: the final state and how the process ended. *)
Definition run (m : script unit) (p : process) : process * termination :=
  match m p with
  | (p', inl t) => (p', t)
  | (p', inr _) => (p', SystemExit 0)
  end.

(* ================================================================= *)
(** ** read_config.py *)

Module read_config.

(** [label in config] *)
Definition contains (config : value) (label : string) : exn + bool :=
  match config with
  | VDict d => inr (bool_decide (is_Some (Value.lookup label d)))
  | VList l => inr (existsb (fun x => match x with
                                       | VStr s => String.eqb s label
                                       | _ => false
                                       end) l)
  | VStr s => inr (Py.substring_of label s)
  | _ => inl TypeError
  end.

(** [config[label]] *)
Definition getitem (config : value) (label : string) : exn + value :=
  match config with
  | VDict d =>
      match Value.lookup label d with
      | Some x => inr x
      | None => inl (KeyError label)
      end
  | _ => inl TypeError
  end.

(** The script.  [config_json] is what opening and decoding
    [config.json] gives, [argv] is [sys.argv]. *)
Definition main (config_json : exn + value) (argv : list string) : script unit :=
  let labels := drop 1 argv in
  config ← lift config_json;
  for_each labels (fun label =>
    found ← lift (contains config label);
    if found : bool then
      x ← lift (getitem config label);
      print (Value.str x);;
      sys_exit 0
    else
      sys_exit 1).

End read_config.

(* ================================================================= *)
(** ** The fragment of [re] that scanner.py uses *)

Module Re.

(** The two patterns of the script are sequences of: the anchor [^]
    (under [re.MULTILINE]), literal text, a greedy [*] or [+] over a
    character class, and a capturing group around such a sequence. *)
Inductive item : Type :=
| Bol
| Lit (s : string)
| Star (cls : ascii -> bool)
| Plus (cls : ascii -> bool)
| Group (n : nat) (body : list item).

Definition pattern : Type := list item.

(** A position in the subject: whether it is the start of the text or
    follows a newline, how many characters the attempt has read, and
    what is left of the text. *)
Record cursor : Type := Cursor { bol : bool; pos : nat; rest : string }.

Definition is_nl (c : ascii) : bool := Ascii.eqb c Py.nl.

(** The captures so far, the latest first. *)
Definition groups : Type := list (nat * string).

Definition result : Type := (groups * cursor)%type.

Fixpoint take (n : nat) (s : string) : string :=
  match n, s with
  | S n', String c s' => String c (take n' s')
  | _, _ => EmptyString
  end.

(** The text between two positions of the same subject. *)
Definition consumed (c c' : cursor) : string :=
  take (pos c' - pos c) (rest c).

Fixpoint lit (s : string) (c : cursor) : option cursor :=
  match s with
  | EmptyString => Some c
  | String a s' =>
      match rest c with
      | String b r =>
          if Ascii.eqb a b then lit s' (Cursor (is_nl b) (S (pos c)) r) else None
      | EmptyString => None
      end
  end.

(** Greedy repetition with backtracking: the longest run first, then
    one character less at a time. *)
Fixpoint star (cls : ascii -> bool) (k : cursor -> option result)
    (b : bool) (i : nat) (s : string) : option result :=
  match s with
  | String a s' =>
      if cls a then
        match star cls k (is_nl a) (S i) s' with
        | Some r => Some r
        | None => k (Cursor b i s)
        end
      else k (Cursor b i s)
  | EmptyString => k (Cursor b i s)
  end.

Definition plus (cls : ascii -> bool) (k : cursor -> option result)
    (c : cursor) : option result :=
  match rest c with
  | String a s' => if cls a then star cls k (is_nl a) (S (pos c)) s' else None
  | EmptyString => None
  end.

(** The backtracking matcher, in continuation-passing style: [k] is
    what remains to be matched after the item. *)
Fixpoint exec_item (it : item) (k : groups -> cursor -> option result)
    (g : groups) (c : cursor) {struct it} : option result :=
  match it with
  | Bol => if bol c then k g c else None
  | Lit s =>
      match lit s c with
      | Some c' => k g c'
      | None => None
      end
  | Star cls => star cls (k g) (bol c) (pos c) (rest c)
  | Plus cls => plus cls (k g) c
  | Group n body =>
      fold_right exec_item (fun g' c' => k ((n, consumed c c') :: g') c') body g c
  end.

Definition exec (p : pattern) (k : groups -> cursor -> option result)
  : groups -> cursor -> option result :=
  fold_right exec_item k p.

(** One attempt at one position, where [b] tells whether it is the
    start of a line and [s] is the text from there on.  With
    [must_advance] an empty match is refused. *)
Definition match_at (p : pattern) (must_advance : bool) (b : bool) (s : string)
  : option result :=
  exec p (fun g c' =>
            if must_advance && (pos c' =? 0)%nat then None else Some (g, c'))
       [] (Cursor b 0 s).

(** [m.group(n)] *)
Fixpoint group (g : groups) (n : nat) : option string :=
  match g with
  | [] => None
  | (n', s) :: g' => if (n =? n')%nat then Some s else group g' n
  end.

(** [p.search(text)]: the first position, from the left, at which the
    pattern matches. *)
Fixpoint search_from (p : pattern) (b : bool) (s : string) : option result :=
  match match_at p false b s with
  | Some r => Some r
  | None =>
      match s with
      | String a s' => search_from p (is_nl a) s'
      | EmptyString => None
      end
  end.

Definition search (p : pattern) (text : string) : option groups :=
  option_map fst (search_from p true text).

(** [p.findall(text)], as the captures of each match: matches are
    looked for from left to right and do not overlap; the search
    resumes where the last match ended ([skip] counts the characters
    still inside it), and after an empty match the same position is
    tried once more for a match that is not empty. *)
Fixpoint findall_from (p : pattern) (skip : nat) (b : bool) (s : string) : list groups :=
  let next (skip : nat) :=
    match s with
    | String a s' => findall_from p skip (is_nl a) s'
    | EmptyString => []
    end in
  match skip with
  | S skip' => next skip'
  | O =>
      match match_at p false b s with
      | None => next 0
      | Some (g, c') =>
          match pos c' with
          | S n => g :: next n
          | O =>
              match match_at p true b s with
              | Some (g2, c2) => g :: g2 :: next (pos c2 - 1)
              | None => g :: next 0
              end
          end
      end
  end.

Definition findall (p : pattern) (text : string) : list groups :=
  findall_from p 0 true text.

(** *** What a match is

    The matcher above is the algorithm; this is the property it
    decides.  [advance w c c'] says that [c'] is the position reached
    from [c] by reading the text [w]. *)
Fixpoint after (b : bool) (w : string) : bool :=
  match w with
  | EmptyString => b
  | String a w' => after (is_nl a) w'
  end.

Definition advance (w : string) (c c' : cursor) : Prop :=
  rest c = w +:+ rest c' /\ bol c' = after (bol c) w
  /\ pos c' = pos c + String.length w.

Inductive matches_item : item -> groups -> cursor -> groups -> cursor -> Prop :=
| matches_bol g c :
    bol c = true -> matches_item Bol g c g c
| matches_lit s g c c' :
    advance s c c' -> matches_item (Lit s) g c g c'
| matches_star cls w g c c' :
    Py.all_chars cls w = true -> advance w c c' ->
    matches_item (Star cls) g c g c'
| matches_plus cls w g c c' :
    Py.all_chars cls w = true -> w <> EmptyString -> advance w c c' ->
    matches_item (Plus cls) g c g c'
| matches_group n body g c g' c' :
    matches body g c g' c' ->
    matches_item (Group n body) g c ((n, consumed c c') :: g') c'
with matches : pattern -> groups -> cursor -> groups -> cursor -> Prop :=
| matches_nil g c : matches [] g c g c
| matches_cons it p g c g1 c1 g2 c2 :
    matches_item it g c g1 c1 -> matches p g1 c1 g2 c2 ->
    matches (it :: p) g c g2 c2.

Scheme matches_item_mut := Minimality for matches_item Sort Prop
  with matches_mut := Minimality for matches Sort Prop.
Combined Scheme matches_mutind from matches_item_mut, matches_mut.

(** The matcher is sound on an item: a result is a match of the item
    that the continuation accepts. *)
Definition sound_item (it : item) : Prop :=
  forall k g c r, exec_item it k g c = Some r ->
    exists g' c', matches_item it g c g' c' /\ k g' c' = Some r.

(** The pattern matches the text at the position that follows [pre]. *)
Definition matches_at (p : pattern) (pre suf : string) : Prop :=
  exists g c', matches p [] (Cursor (after true pre) 0 suf) g c'.





End Re.

(* ================================================================= *)
(** ** The argument parser that scanner.py declares *)

Module Argparse.

(** What a storing action leaves in the namespace: the string given for
    the option or, for a value written as [--option=--], the empty
    list. *)
Inductive stored : Type :=
| Text (s : string)
| EmptyList.

(** [args], the namespace [parser.parse_args()] returns. *)
Record objects : Type := Objects {
  o_version : stored;
  o_source : stored;
  o_out : stored;
  o_verbose : bool
}.

(** A namespace whose three values are strings. *)
Record namespace : Type := Namespace {
  version : string;
  source : string;
  out : string;
  verbose : bool
}.

Definition strings (args : objects) : option namespace :=
  match o_version args, o_source args, o_out args with
  | Text v, Text s, Text o => Some (Namespace v s o (o_verbose args))
  | _, _, _ => None
  end.

(** The actions of the parser: the help action every parser has, and
    the four [add_argument] calls of the script.  [--version],
    [--source] and [--out] store one string (no [type] is given) and
    are required; [--verbose] is a [store_true] flag. *)
Inductive action : Type := Help | Version | Source | Out | Verbose.

Definition option_string_actions : list (string * action) :=
  [ ("-h", Help); ("--help", Help); ("--version", Version);
    ("--source", Source); ("--out", Out); ("--verbose", Verbose) ].

Definition takes_value (a : action) : bool :=
  match a with
  | Version | Source | Out => true
  | Help | Verbose => false
  end.

Fixpoint exact (s : string) (table : list (string * action)) : option action :=
  match table with
  | [] => None
  | (o, a) :: table' => if String.eqb s o then Some a else exact s table'
  end.

(** [s.split('=', 1)], when [s] has an equals sign *)
Fixpoint split_eq (s : string) : option (string * string) :=
  match s with
  | EmptyString => None
  | String c s' =>
      if Py.code_is 61 c then Some (EmptyString, s')
      else match split_eq s' with
           | Some (l, r) => Some (String c l, r)
           | None => None
           end
  end.

(** How one argument string is read: as an argument ([A] in the
    pattern [argparse] builds), as the separator [--], or as an option
    ([O]) with the action it names, if any, and the value given with
    it after an equals sign, if any. *)
Inductive kind : Type :=
| Arg
| Separator
| Opt (a : option action) (option_string : string) (explicit_arg : option string).

(** The abbreviations of an option string ([_get_option_tuples]). *)
Definition option_tuples (arg_string : string) : list kind :=
  match arg_string with
  | String c0 (String c1 rest) =>
      if Py.code_is 45 c0 && Py.code_is 45 c1 then
        let '(option_prefix, explicit_arg) :=
          match split_eq arg_string with
          | Some (l, r) => (l, Some r)
          | None => (arg_string, None)
          end in
        omap (fun '(o, a) =>
                if Py.startswith option_prefix o
                then Some (Opt (Some a) o explicit_arg) else None)
             option_string_actions
      else if Py.code_is 45 c0 then
        let short_option_prefix := String c0 (String c1 EmptyString) in
        omap (fun '(o, a) =>
                if String.eqb o short_option_prefix
                then Some (Opt (Some a) o (Some rest))
                else if Py.startswith arg_string o
                then Some (Opt (Some a) o None) else None)
             option_string_actions
      else []
  | _ => []
  end.

(** The strings that look like a negative number, [-5] or [-.5]: a
    dash, then digits, or digits (possibly none), a dot and digits,
    up to the end or to a last newline. *)
Fixpoint drop_decimals (s : string) : string :=
  match s with
  | String c s' => if Py.isdecimal c then drop_decimals s' else s
  | EmptyString => EmptyString
  end.

Definition at_end (s : string) : bool :=
  match s with
  | EmptyString => true
  | String c EmptyString => Py.code_is 10 c
  | _ => false
  end.

Definition negative_number (arg_string : string) : bool :=
  match arg_string with
  | String c0 s =>
      Py.code_is 45 c0 &&
      ((negb (String.eqb (drop_decimals s) s) && at_end (drop_decimals s))
       || match drop_decimals s with
          | String c s' =>
              Py.code_is 46 c && negb (String.eqb (drop_decimals s') s')
              && at_end (drop_decimals s')
          | EmptyString => false
          end)
  | EmptyString => false
  end.

(** [_parse_optional]; [None] is the error for an ambiguous
    abbreviation. *)
Definition parse_optional (arg_string : string) : option kind :=
  match arg_string with
  | EmptyString => Some Arg
  | String c0 tail =>
      if negb (Py.code_is 45 c0) then Some Arg
      else
        match exact arg_string option_string_actions with
        | Some a => Some (Opt (Some a) arg_string None)
        | None =>
            match tail with
            | EmptyString => Some Arg
            | _ =>
                match
                  match split_eq arg_string with
                  | Some (o, v) =>
                      match exact o option_string_actions with
                      | Some a => Some (Opt (Some a) o (Some v))
                      | None => None
                      end
                  | None => None
                  end
                with
                | Some k => Some k
                | None =>
                    match option_tuples arg_string with
                    | _ :: _ :: _ => None
                    | [k] => Some k
                    | [] =>
                        if negative_number arg_string then Some Arg
                        else if Py.has_char " " arg_string then Some Arg
                        else Some (Opt None arg_string None)
                    end
                end
            end
        end
  end.

(** The first pass over the command line: every string up to the
    first [--] is classified, every string after it is an argument. *)
Fixpoint classify (arg_strings : list string) : option (list (kind * string)) :=
  match arg_strings with
  | [] => Some []
  | s :: l =>
      if String.eqb s "--" then Some ((Separator, s) :: List.map (fun x => (Arg, x)) l)
      else
        match parse_optional s, classify l with
        | Some k, Some ks => Some ((k, s) :: ks)
        | _, _ => None
        end
  end.

(** What the second pass has collected. *)
Record partial : Type := Partial {
  p_version : option stored;
  p_source : option stored;
  p_out : option stored;
  p_verbose : bool;
  extras : bool
}.

(** The value of an option given as [--option=value]: [_get_values]
    removes a [--] from the strings of the value, and what is left of
    the one string is then no string but the empty list. *)
Definition explicit_value (explicit_arg : string) : stored :=
  if String.eqb explicit_arg "--" then EmptyList else Text explicit_arg.

Definition store (a : action) (v : stored) (ns : partial) : partial :=
  match a with
  | Version => Partial (Some v) (p_source ns) (p_out ns) (p_verbose ns) (extras ns)
  | Source => Partial (p_version ns) (Some v) (p_out ns) (p_verbose ns) (extras ns)
  | Out => Partial (p_version ns) (p_source ns) (Some v) (p_verbose ns) (extras ns)
  | _ => ns
  end.

Definition store_true (ns : partial) : partial :=
  Partial (p_version ns) (p_source ns) (p_out ns) true (extras ns).

Definition extra (ns : partial) : partial :=
  Partial (p_version ns) (p_source ns) (p_out ns) (p_verbose ns) true.

(** A single-dash flag with text glued to it: the text is read as
    further single-dash flags. *)
Fixpoint flags_only (explicit_arg : string) : bool :=
  match explicit_arg with
  | EmptyString => true
  | String c e =>
      match exact (String "-" (String c EmptyString)) option_string_actions with
      | Some a => negb (takes_value a) && flags_only e
      | None => false
      end
  end.

Definition single_dash (option_string : string) : bool :=
  match option_string with
  | String _ (String c1 _) => negb (Py.code_is 45 c1)
  | _ => false
  end.

(** The end of parsing: a required option that was not given, or an
    argument nobody took, is an error. *)
Definition finish (ns : partial) : termination + objects :=
  match p_version ns, p_source ns, p_out ns with
  | Some v, Some s, Some o =>
      if extras ns then inl UsageError else inr (Objects v s o (p_verbose ns))
  | _, _, _ => inl UsageError
  end.

(** The second pass, from left to right. *)
Fixpoint consume (l : list (kind * string)) (ns : partial) : termination + objects :=
  match l with
  | [] => finish ns
  | (Arg, _) :: l' => consume l' (extra ns)
  | (Separator, _) :: l' => consume l' (extra ns)
  | (Opt None _ _, _) :: l' => consume l' (extra ns)
  | (Opt (Some a) option_string explicit_arg, _) :: l' =>
      if takes_value a then
        match explicit_arg with
        | Some v => consume l' (store a (explicit_value v) ns)
        | None =>
            match l' with
            | (Arg, v) :: l'' => consume l'' (store a (Text v) ns)
            | _ => inl UsageError
            end
        end
      else
        if match explicit_arg with
           | None => true
           | Some e =>
               single_dash option_string && negb (String.eqb e EmptyString)
               && flags_only e
           end
        then
          match a with
          | Help => inl HelpExit
          | _ => consume l' (store_true ns)
          end
        else inl UsageError
  end.

(** [parser.parse_args()], on [sys.argv[1:]]. *)
Definition parse_namespace (arg_strings : list string) : termination + objects :=
  match classify arg_strings with
  | None => inl UsageError
  | Some l => consume l (Partial None None None false false)
  end.

(** [parser.parse_args()] as the script means it, with a string for
    each of the three options.  On the command lines that leave a list
    in the namespace, the result is the [TypeError] that the first
    [open] or [int] given the list raises. *)
Definition parse_args (arg_strings : list string) : termination + namespace :=
  match parse_namespace arg_strings with
  | inl t => inl t
  | inr args =>
      match strings args with
      | Some args => inr args
      | None => inl (Uncaught TypeError)
      end
  end.

(** A string that [parse_args] reads as an argument, not as an option:
    what can follow [--source] or [--out] as its value. *)
Definition is_argument (s : string) : Prop := parse_optional s = Some Arg.

(** The option of action [a] is given on the command line, in full,
    abbreviated or with its value glued to it. *)
Definition given (a : action) (arg_strings : list string) : Prop :=
  exists s o e, In s arg_strings /\ parse_optional s = Some (Opt (Some a) o e).

Definition required (a : action) : Prop := a = Version \/ a = Source \/ a = Out.

(** No string of the classified command line names the option. *)
Definition no_opt (a : action) (ks : list (kind * string)) : Prop :=
  Forall (fun ks => forall o e, ks.1 <> Opt (Some a) o e) ks.

(** A string that makes the parser fail at the end: the separator or
    an option it does not know. *)
Definition stray (ks : kind * string) : Prop :=
  ks.1 = Separator \/ exists o e, ks.1 = Opt None o e.

(** What has been stored for a required option. *)
Definition slot (a : action) (ns : partial) : option stored :=
  match a with
  | Version => p_version ns
  | Source => p_source ns
  | Out => p_out ns
  | _ => None
  end.

End Argparse.

(* ================================================================= *)
(** ** scanner.py: the patterns and the extraction *)

Module scanner.

(** The pattern of the macro definition: line start, optional space,
    [#define], space, group 1 (the macro, a run of word characters),
    space, [__declspec], then an opening parenthesis, [dllexport] and a
    closing parenthesis with optional space around each. *)
Definition macro_pattern : Re.pattern :=
  [ Re.Bol; Re.Star Py.isspace; Re.Lit "#define"; Re.Plus Py.isspace;
    Re.Group 1 [Re.Plus Py.isword]; Re.Plus Py.isspace;
    Re.Lit "__declspec"; Re.Star Py.isspace; Re.Lit "(";
    Re.Star Py.isspace; Re.Lit "dllexport"; Re.Star Py.isspace; Re.Lit ")" ].

(** [re.escape(export_macro)]: the text, to be matched literally. *)
Definition escape (export_macro : string) : Re.item := Re.Lit export_macro.

(** The class [[\w\s*]] *)
Definition type_char (c : ascii) : bool :=
  Py.isword c || Py.isspace c || Py.code_is 42 c.

(** The class [[^)]] *)
Definition not_rparen (c : ascii) : bool := negb (Py.code_is 41 c).

(** The pattern of a definition: line start, optional space, the macro,
    space, group 1 (the return type, a run of [type_char]), space,
    group 2 (the name, a run of word characters), optional space, an
    opening parenthesis, group 3 (the argument text, any run without a
    closing parenthesis), the closing parenthesis, optional space and
    an opening brace. *)
Definition func_pattern (escaped_macro : Re.item) : Re.pattern :=
  [ Re.Bol; Re.Star Py.isspace; escaped_macro; Re.Plus Py.isspace;
    Re.Group 1 [Re.Plus type_char]; Re.Plus Py.isspace;
    Re.Group 2 [Re.Plus Py.isword]; Re.Star Py.isspace; Re.Lit "(";
    Re.Group 3 [Re.Star not_rparen]; Re.Lit ")"; Re.Star Py.isspace;
    Re.Lit "{" ].

(** [match.group(1) if match else None] *)
Definition export_macro_of (source_code : string) : option string :=
  match Re.search macro_pattern source_code with
  | Some m => Re.group m 1
  | None => None
  end.

(** One entry of [functions], from the tuple [findall] gives. *)
Definition entry (m : Re.groups) : value :=
  let ret_type := default EmptyString (Re.group m 1) in
  let name := default EmptyString (Re.group m 2) in
  let args_list := default EmptyString (Re.group m 3) in
  VDict [ ("name", VStr name);
          ("return_type", VStr (Py.strip ret_type));
          ("args", VStr (Py.strip args_list)) ].

(** The list [functions] the loop builds. *)
Definition functions_of (export_macro source_code : string) : list value :=
  List.map entry (Re.findall (func_pattern (escape export_macro)) source_code).

(** The shape of the text the function pattern matches: the return
    type [rt], the name and the argument text, with the macro before
    them and white space (which may hold line breaks) between the
    parts. *)
Definition is_definition (export_macro span rt name args : string) : Prop :=
  exists w0 w1 w2 w3 w4 : string,
    span = w0 +:+ export_macro +:+ w1 +:+ rt +:+ w2 +:+ name +:+ w3
           +:+ "(" +:+ args +:+ ")" +:+ w4 +:+ "{"
    /\ Py.all_chars Py.isspace w0 = true
    /\ Py.all_chars Py.isspace w1 = true /\ w1 <> EmptyString
    /\ Py.all_chars type_char rt = true /\ rt <> EmptyString
    /\ Py.all_chars Py.isspace w2 = true /\ w2 <> EmptyString
    /\ Py.all_chars Py.isword name = true /\ name <> EmptyString
    /\ Py.all_chars Py.isspace w3 = true
    /\ Py.all_chars not_rparen args = true
    /\ Py.all_chars Py.isspace w4 = true.

(** The shape of the text the macro pattern matches: [#define], the
    macro and [__declspec(dllexport)], with white space between the
    parts and, optionally, around the parentheses. *)
Definition is_macro_definition (export_macro span : string) : Prop :=
  exists w0 w1 w2 w3 w4 w5 : string,
    span = w0 +:+ "#define" +:+ w1 +:+ export_macro +:+ w2 +:+ "__declspec"
           +:+ w3 +:+ "(" +:+ w4 +:+ "dllexport" +:+ w5 +:+ ")"
    /\ Py.all_chars Py.isspace w0 = true
    /\ Py.all_chars Py.isspace w1 = true /\ w1 <> EmptyString
    /\ Py.all_chars Py.isword export_macro = true /\ export_macro <> EmptyString
    /\ Py.all_chars Py.isspace w2 = true /\ w2 <> EmptyString
    /\ Py.all_chars Py.isspace w3 = true
    /\ Py.all_chars Py.isspace w4 = true
    /\ Py.all_chars Py.isspace w5 = true.

(** [if not export_macro]: [None] and the empty string are false. *)
Definition truthy (export_macro : option string) : bool :=
  match export_macro with
  | None => false
  | Some s => negb (String.eqb s EmptyString)
  end.

(** The dictionary [data]. *)
Definition data_of (schema_version : Z) (source formatted_time : string)
    (functions : list value) : value :=
  VDict [ ("schema_version", VInt schema_version);
          ("source", VStr source);
          ("timestamp", VStr formatted_time);
          ("exported_functions", VList functions) ].

Definition no_macro : exn :=
  RuntimeError "No Windows dllexport macro found in source file".

(** The path given to [open]: a list is a [TypeError]. *)
Definition path_of (v : Argparse.stored) : exn + string :=
  match v with
  | Argparse.Text s => inr s
  | Argparse.EmptyList => inl TypeError
  end.

(** [int(args.version)] *)
Definition int_of (v : Argparse.stored) : exn + Z :=
  match v with
  | Argparse.Text s =>
      match Py.int s with
      | Some z => inr z
      | None => inl ValueError
      end
  | Argparse.EmptyList => inl TypeError
  end.

(** The script.  [formatted_time] is the reading of the clock the
    script takes first, [argv] is [sys.argv]. *)
Definition main (formatted_time : string) (argv : list string) : script unit :=
  args ← match Argparse.parse_namespace (drop 1 argv) with
          | inl t => stop t
          | inr args => mret args
          end;
  source ← lift (path_of (Argparse.o_source args));
  source_code ← read_text source;
  let export_macro := export_macro_of source_code in
  if negb (truthy export_macro) then raise no_macro
  else
    let export_macro := default EmptyString export_macro in
    let functions := functions_of export_macro source_code in
    schema_version ← lift (int_of (Argparse.o_version args));
    let data := data_of schema_version source formatted_time functions in
    out ← lift (path_of (Argparse.o_out args));
    write_text out (Json.dumps (Some 3) data);;
    if Argparse.o_verbose args then
      print ("Writing " +:+ Py.str_nat (List.length functions)
               +:+ " functions to " +:+ out);;
      print ("[VERBOSE] File scanned for functions: " +:+ source)
    else mret tt.

(** The state a run leaves that went through: the report is in the
    output file and, with [--verbose], two lines are on standard
    output. *)
Definition after_success (p : process) (args : Argparse.namespace)
    (formatted_time : string) (schema_version : Z) (functions : list value)
  : process :=
  Process
    (if Argparse.verbose args then
       (stdout p +:+ ("Writing " +:+ Py.str_nat (List.length functions)
                        +:+ " functions to " +:+ Argparse.out args)
                 +:+ String Py.nl EmptyString)
       +:+ ("[VERBOSE] File scanned for functions: " +:+ Argparse.source args)
       +:+ String Py.nl EmptyString
     else stdout p)
    (<[Argparse.out args :=
         Json.dumps (Some 3)
           (data_of schema_version (Argparse.source args) formatted_time functions)]>
       (files p))
    (unwritable p).

End scanner.

(* ================================================================= *)
(** ** Sample inputs *)

Module Samples.

Definition empty_process : process := Process EmptyString ∅ ∅.

Definition config_ab : value := VDict [("a", VInt 1); ("b", VInt 2)].


(** The file of the round-trip scenario: the macro definition, the
    definition of [Foo], and whatever follows the opening brace. *)
Definition foo_source (tail : string) : string :=
  "#define MYAPI __declspec(dllexport)" +:+ String Py.nl EmptyString
  +:+ "MYAPI int Foo(int x) {" +:+ tail.

Definition foo_tail : string :=
  String Py.nl ("  return x;" +:+ String Py.nl ("}" +:+ String Py.nl EmptyString)).





(** A definition broken over three lines, up to its closing
    parenthesis. *)
Definition multi_line_definition : string :=
  "MYAPI int" +:+ String Py.nl ("Foo(int x," +:+ String Py.nl "    int y").

Definition multi_line_source : string :=
  "#define MYAPI __declspec(dllexport)" +:+ String Py.nl EmptyString
  +:+ multi_line_definition +:+ ") {" +:+ String Py.nl ("}" +:+ String Py.nl EmptyString).

Definition disk : gmap string string :=
  <["s.c" := foo_source foo_tail]>
    (<["plain.c" := "int x;"]>
       (<["macro.c" := "#define MYAPI __declspec(dllexport)"]> ∅)).

Definition sample_process : process := Process EmptyString disk ∅.

(** The same files, where [ro.json] cannot be opened for writing. *)
Definition locked_process : process := Process EmptyString disk {["ro.json"]}.

(** The decimal text of an integer of 4301 digits, one digit more
    than [int()] converts. *)
Fixpoint nines (n : nat) : string :=
  match n with
  | O => EmptyString
  | S n' => String "9" (nines n')
  end.

Definition long_version : string := nines 4301.

Definition noon : string := "2026-01-01T12:00:00+00:00".
Definition later : string := "2026-01-01T12:00:05+00:00".

Definition argv_of (version source out : string) : list string :=
  ["scanner.py"; "--version"; version; "--source"; source; "--out"; out].

Definition multi_line_entry : value :=
  VDict [("name", VStr "Foo"); ("return_type", VStr "int");
         ("args", VStr ("int x," +:+ String Py.nl "    int y"))].

(** The state the first run leaves. *)
Definition after_first_run : process :=
  (run (scanner.main noon (argv_of "3" "s.c" "o.json")) sample_process).1.

End Samples.

(* ================================================================= *)
(** ** Properties of read_config.py *)

Module ReadConfigFacts.
Import Samples.

Section ReadConfig.

Variable prog : string.   (* sys.argv[0] *)

(** One turn of the loop on an object: the label is looked up once and
    the run stops, whatever the outcome. *)
Lemma main_first_label (d : list (string * value)) (label : string)
    (later : list string) (p : process) :
  run (read_config.main (inr (VDict d)) (prog :: label :: later)) p =
  match Value.lookup label d with
  | Some x =>
      (Process (stdout p +:+ Value.str x +:+ String Py.nl EmptyString)
               (files p) (unwritable p), SystemExit 0)
  | None => (p, SystemExit 1)
  end.
Proof.
  unfold run, read_config.main; cbn.
  unfold mbind, script_bind, bind, lift; cbn.
  destruct (Value.lookup label d) as [x|] eqn:E; cbn; reflexivity.
Qed.

(** C1.  When the first label is not a key of the configuration
    object, the run ends with exit code 1 and has printed nothing (the
    process state is unchanged); the later labels play no part, also
    when one of them is a key. *)
Theorem first_label_missing_exits_1 (d : list (string * value))
    (label : string) (later : list string) (p : process) :
  Value.lookup label d = None ->
  run (read_config.main (inr (VDict d)) (prog :: label :: later)) p
  = (p, SystemExit 1).
Proof.
  intros H. rewrite main_first_label, H. reflexivity.
Qed.


(** C10.  Without labels, and with a configuration that was decoded,
    the loop body is never entered: nothing is printed and the script
    ends with exit code 0. *)
Theorem no_labels_exits_0 (config : value) (p : process) :
  run (read_config.main (inr config) [prog]) p = (p, SystemExit 0).
Proof. reflexivity. Qed.

End ReadConfig.

Lemma first_label_missing_exits_1_witness :
  Value.lookup "z" [("a", VInt 1); ("b", VInt 2)] = None
  /\ run (read_config.main (inr config_ab) ["read_config.py"; "z"; "a"]) empty_process
     = (empty_process, SystemExit 1).
Proof.
  split; [reflexivity|].
  apply (first_label_missing_exits_1 "read_config.py"
           [("a", VInt 1); ("b", VInt 2)] "z" ["a"] empty_process).
  reflexivity.
Defined.



End ReadConfigFacts.

(* ================================================================= *)
(** ** The matcher finds matches, and only matches *)

Module ReFacts.
Import Re.

#[local] Arguments String.append !s1 s2 : simpl nomatch.

Lemma append_nil_r (s : string) : s +:+ EmptyString = s.
Proof. induction s; cbn; congruence. Qed.

Lemma append_assoc (a b c : string) : (a +:+ b) +:+ c = a +:+ (b +:+ c).
Proof. induction a; cbn; congruence. Qed.

Lemma length_append (a b : string) :
  String.length (a +:+ b) = String.length a + String.length b.
Proof. induction a; cbn; congruence. Qed.

Lemma after_append (b : bool) (u v : string) :
  after b (u +:+ v) = after (after b u) v.
Proof. revert b; induction u; intros; cbn; auto. Qed.

Lemma all_chars_append (cls : ascii -> bool) (u v : string) :
  Py.all_chars cls (u +:+ v) = Py.all_chars cls u && Py.all_chars cls v.
Proof. induction u; cbn; [reflexivity|]. rewrite IHu, andb_assoc. reflexivity. Qed.

Lemma advance_nil (c : cursor) : advance EmptyString c c.
Proof. repeat split; cbn; lia. Qed.

Lemma advance_trans (u v : string) (c1 c2 c3 : cursor) :
  advance u c1 c2 -> advance v c2 c3 -> advance (u +:+ v) c1 c3.
Proof.
  intros (H1 & H2 & H3) (H4 & H5 & H6). repeat split.
  - rewrite H1, H4, append_assoc. reflexivity.
  - rewrite H5, H2, after_append. reflexivity.
  - rewrite H6, H3, length_append. lia.
Qed.

Lemma take_append (w r : string) : take (String.length w) (w +:+ r) = w.
Proof.
  induction w as [|a w IH]; cbn; [destruct r; reflexivity | rewrite IH; reflexivity].
Qed.

Lemma advance_consumed (w : string) (c c' : cursor) :
  advance w c c' -> consumed c c' = w.
Proof.
  intros (H1 & _ & H3). unfold consumed. rewrite H1, H3.
  replace (pos c + String.length w - pos c) with (String.length w) by lia.
  apply take_append.
Qed.

Lemma lit_advance (s : string) (c c' : cursor) :
  lit s c = Some c' <-> advance s c c'.
Proof.
  revert c. induction s as [|a s IH]; intros [b i r]; cbn.
  - split.
    + intros [= <-]. apply advance_nil.
    + destruct c' as [b' i' r']. intros (H1 & H2 & H3); cbn in *.
      subst. f_equal. f_equal. lia.
  - destruct r as [|x r]; cbn.
    + split; [discriminate | intros [H _]; discriminate].
    + destruct (Ascii.eqb_spec a x) as [->|Hne].
      * rewrite IH. unfold advance; cbn. split.
        -- intros (-> & -> & ->). repeat split. lia.
        -- intros ([= ->] & -> & ->). repeat split. lia.
      * split; [discriminate|]. intros [[= E _] _]. congruence.
Qed.

(** Greedy repetition: whatever [star] returns was returned by the
    continuation after some run of the class. *)
Lemma star_sound (cls : ascii -> bool) (k : cursor -> option result)
    (b : bool) (i : nat) (s : string) (r : result) :
  star cls k b i s = Some r ->
  exists w s', s = w +:+ s' /\ Py.all_chars cls w = true
               /\ k (Cursor (after b w) (i + String.length w) s') = Some r.
Proof.
  revert b i. induction s as [|a s IH]; intros b i H; cbn in H.
  - exists EmptyString, EmptyString. cbn. rewrite Nat.add_0_r. auto.
  - assert (Hstay : exists w s', String a s = w +:+ s' /\ Py.all_chars cls w = true
              /\ k (Cursor (after b w) (i + String.length w) s')
                 = k (Cursor b i (String a s))).
    { exists EmptyString, (String a s). cbn. rewrite Nat.add_0_r. auto. }
    destruct (cls a) eqn:Ha.
    + destruct (star cls k (is_nl a) (S i) s) as [r'|] eqn:E.
      * injection H as <-. destruct (IH _ _ E) as (w & s' & -> & Hw & Hk).
        exists (String a w), s'. cbn. rewrite Ha, Hw.
        replace (i + S (String.length w)) with (S i + String.length w) by lia.
        auto.
      * destruct Hstay as (w & s' & ? & ? & Hk). exists w, s'. rewrite Hk. auto.
    + destruct Hstay as (w & s' & ? & ? & Hk). exists w, s'. rewrite Hk. auto.
Qed.

(** ... and it returns something as soon as the continuation accepts
    after some run of the class. *)
Lemma star_complete (cls : ascii -> bool) (k : cursor -> option result)
    (b : bool) (i : nat) (w s' : string) :
  Py.all_chars cls w = true ->
  is_Some (k (Cursor (after b w) (i + String.length w) s')) ->
  is_Some (star cls k b i (w +:+ s')).
Proof.
  revert b i. induction w as [|a w IH]; intros b i Hw Hk; cbn in *.
  - rewrite Nat.add_0_r in Hk.
    destruct s' as [|a s]; cbn; [assumption|].
    destruct (cls a); [|assumption].
    destruct (star cls k (is_nl a) (S i) s); [eauto | assumption].
  - apply andb_prop in Hw as [-> Hw].
    replace (i + S (String.length w)) with (S i + String.length w) in Hk by lia.
    destruct (IH (is_nl a) (S i) Hw Hk) as [r ->]. eauto.
Qed.

(** Induction over items, with the items of a group's body. *)
Lemma item_ind' (P : item -> Prop) :
  P Bol -> (forall s, P (Lit s)) -> (forall cls, P (Star cls)) ->
  (forall cls, P (Plus cls)) ->
  (forall n body, Forall P body -> P (Group n body)) ->
  forall it, P it.
Proof.
  intros HB HL HS HP HG. fix IH 1.
  intros [| s | cls | cls | n body];
    [apply HB | apply HL | apply HS | apply HP | apply HG].
  induction body as [|it body IHb]; constructor; [apply IH | exact IHb].
Qed.

Lemma exec_sound_of (p : pattern) :
  Forall sound_item p ->
  forall k g c r, exec p k g c = Some r ->
    exists g' c', matches p g c g' c' /\ k g' c' = Some r.
Proof.
  induction 1 as [|it p Hit _ IH]; intros k g c r H; cbn in H.
  - exists g, c. split; [constructor | assumption].
  - apply Hit in H as (g1 & c1 & M1 & H).
    apply IH in H as (g2 & c2 & M2 & H).
    exists g2, c2. split; [econstructor; eauto | assumption].
Qed.

Lemma exec_item_sound (it : item) : sound_item it.
Proof.
  induction it as [| s | cls | cls | n body IH] using item_ind';
    intros k g c r H; cbn in H.
  - destruct (bol c) eqn:Hb; [|discriminate].
    exists g, c. split; [constructor; assumption | assumption].
  - destruct (lit s c) as [c'|] eqn:E; [|discriminate].
    exists g, c'. split; [constructor; apply lit_advance; assumption | assumption].
  - apply star_sound in H as (w & s' & Hs & Hw & H).
    exists g, (Cursor (after (bol c) w) (pos c + String.length w) s').
    split; [|assumption].
    apply matches_star with w; [assumption | repeat split; assumption].
  - unfold plus in H. destruct (rest c) as [|a s] eqn:Hr; [discriminate|].
    destruct (cls a) eqn:Ha; [|discriminate].
    apply star_sound in H as (w & s' & -> & Hw & H).
    exists g, (Cursor (after (is_nl a) w) (S (pos c) + String.length w) s').
    split; [|assumption].
    apply matches_plus with (String a w).
    + cbn. rewrite Ha. assumption.
    + discriminate.
    + repeat split; cbn; [assumption | lia].
  - apply (exec_sound_of body IH) in H as (g' & c' & M & H).
    exists ((n, consumed c c') :: g'), c'. split; [constructor; assumption | assumption].
Qed.

(** Soundness: a result of the matcher is a match, accepted by the
    continuation. *)
Lemma exec_sound (p : pattern) (k : groups -> cursor -> option result)
    (g : groups) (c : cursor) (r : result) :
  exec p k g c = Some r ->
  exists g' c', matches p g c g' c' /\ k g' c' = Some r.
Proof.
  apply exec_sound_of. apply Forall_forall. intros it _. apply exec_item_sound.
Qed.

(** Completeness: where there is a match that the continuation
    accepts, the matcher returns a result (the first one in its
    order, possibly another match). *)
Lemma exec_complete_mut :
  (forall it g c g' c', matches_item it g c g' c' ->
     forall k, is_Some (k g' c') -> is_Some (exec_item it k g c))
  /\ (forall p g c g' c', matches p g c g' c' ->
     forall k, is_Some (k g' c') -> is_Some (exec p k g c)).
Proof.
  apply matches_mutind.
  - intros g c Hb k Hk. cbn. rewrite Hb. exact Hk.
  - intros s g c c' Ha k Hk. cbn.
    apply lit_advance in Ha. rewrite Ha. exact Hk.
  - intros cls w g c [b' i' r'] Hw (Hr & Hb & Hi) k Hk. cbn in *. subst b' i'.
    rewrite Hr. apply star_complete; assumption.
  - intros cls w g c [b' i' r'] Hw Hne (Hr & Hb & Hi) k Hk. cbn in *. subst b' i'.
    destruct w as [|a w]; [congruence|]. cbn in Hw.
    apply andb_prop in Hw as [Ha Hw].
    unfold plus. rewrite Hr. cbn. rewrite Ha.
    apply star_complete; [assumption|].
    cbn in Hk. replace (S (pos c) + String.length w)
      with (pos c + S (String.length w)) by lia. assumption.
  - intros n body g c g' c' _ IH k Hk. cbn. apply (IH _ Hk).
  - intros g c k Hk. exact Hk.
  - intros it p g c g1 c1 g2 c2 _ IH1 _ IH2 k Hk. cbn.
    apply IH1. apply IH2. exact Hk.
Qed.

Lemma exec_complete (p : pattern) (k : groups -> cursor -> option result)
    (g g' : groups) (c c' : cursor) :
  matches p g c g' c' -> is_Some (k g' c') -> is_Some (exec p k g c).
Proof. intros M. apply (proj2 exec_complete_mut _ _ _ _ _ M). Qed.

Lemma match_at_sound (p : pattern) (adv b : bool) (s : string)
    (c' : cursor) (g : groups) :
  match_at p adv b s = Some (g, c') -> matches p [] (Cursor b 0 s) g c'.
Proof.
  unfold match_at. intros H. apply exec_sound in H as (g1 & c1 & M & H).
  destruct (adv && _); [discriminate|]. injection H as <- <-. exact M.
Qed.

Lemma match_at_complete (p : pattern) (b : bool) (s : string)
    (c' : cursor) (g : groups) :
  matches p [] (Cursor b 0 s) g c' -> is_Some (match_at p false b s).
Proof.
  intros M. unfold match_at. apply (exec_complete _ _ _ _ _ _ M). cbn. eauto.
Qed.

(** [search] returns nothing exactly when the pattern matches at no
    position of the text. *)
Lemma search_from_None (p : pattern) (s : string) (b : bool) :
  search_from p b s = None <->
  (forall pre suf, s = pre +:+ suf -> match_at p false (after b pre) suf = None).
Proof.
  revert b. induction s as [|a s IH]; intros b; cbn.
  - destruct (match_at p false b EmptyString) eqn:E.
    + split; [discriminate|]. intros H.
      specialize (H EmptyString EmptyString eq_refl). cbn in H. congruence.
    + split; [|reflexivity]. intros _ pre suf Hs.
      destruct pre; [|discriminate]. cbn in Hs. subst suf. exact E.
  - destruct (match_at p false b (String a s)) eqn:E.
    + split; [discriminate|]. intros H.
      specialize (H EmptyString (String a s) eq_refl). cbn in H. congruence.
    + rewrite IH. split.
      * intros H [|x pre] suf Hs; cbn in Hs.
        -- subst suf. exact E.
        -- injection Hs as <- ->. apply H. reflexivity.
      * intros H pre suf ->. apply (H (String a pre) suf). reflexivity.
Qed.

Lemma search_None (p : pattern) (text : string) :
  search p text = None <->
  (forall pre suf, text = pre +:+ suf -> ~ matches_at p pre suf).
Proof.
  unfold search.
  destruct (search_from p true text) as [r|] eqn:E; cbn.
  - split; [discriminate|]. intros H. exfalso.
    assert (N : search_from p true text <> None) by congruence.
    apply N. apply search_from_None. intros pre suf Hs.
    destruct (match_at p false (after true pre) suf) as [[g c']|] eqn:M;
      [|reflexivity].
    exfalso. apply (H pre suf Hs). exists g, c'. eapply match_at_sound; eassumption.
  - split; [|reflexivity]. intros _ pre suf Hs [g [c' M]].
    apply search_from_None with (pre := pre) (suf := suf) in E; [|assumption].
    apply match_at_complete in M as [r Hr]. congruence.
Qed.

(** What [search] returns is a match at some position of the text. *)
Lemma search_from_Some (p : pattern) (s : string) (b : bool) (r : result) :
  search_from p b s = Some r ->
  exists pre suf, s = pre +:+ suf
                  /\ match_at p false (after b pre) suf = Some r.
Proof.
  revert b. induction s as [|a s IH]; intros b; cbn.
  - destruct (match_at p false b EmptyString) eqn:E; [|discriminate].
    intros [= <-]. exists EmptyString, EmptyString. auto.
  - destruct (match_at p false b (String a s)) eqn:E.
    + intros [= <-]. exists EmptyString, (String a s). auto.
    + intros H. apply IH in H as (pre & suf & -> & H).
      exists (String a pre), suf. auto.
Qed.

(** Every element of [findall] is the captures of a match at some
    position of the text. *)
Lemma findall_from_sound (p : pattern) (s : string) :
  forall (skip : nat) (b : bool) (g : groups),
    In g (findall_from p skip b s) ->
    exists pre suf c', s = pre +:+ suf
                       /\ matches p [] (Cursor (after b pre) 0 suf) g c'.
Proof.
  induction s as [|a s IH]; intros skip b g0 Hin.
  - cbn in Hin. destruct skip; [|contradiction].
    assert (Hhere : forall adv g c', match_at p adv b EmptyString = Some (g, c') ->
              exists pre suf c', EmptyString = pre +:+ suf
                /\ matches p [] (Cursor (after b pre) 0 suf) g c').
    { intros adv g1 c1 E1. exists EmptyString, EmptyString, c1.
      split; [reflexivity | eapply match_at_sound; eassumption]. }
    destruct (match_at p false b EmptyString) as [[g c']|] eqn:E;
      [|contradiction].
    destruct (pos c'); cbn in Hin.
    + destruct (match_at p true b EmptyString) as [[g2 c2]|] eqn:E2;
        cbn in Hin.
      * destruct Hin as [<-|[<-|Hin]]; [eauto | eauto | contradiction].
      * destruct Hin as [<-|Hin]; [eauto | contradiction].
    + destruct Hin as [<-|Hin]; [eauto | contradiction].
  - assert (Hnext : forall k, In g0 (findall_from p k (is_nl a) s) ->
              exists pre suf c', String a s = pre +:+ suf
                /\ matches p [] (Cursor (after b pre) 0 suf) g0 c').
    { intros k Hk. apply IH in Hk as (pre & suf & c' & -> & M).
      exists (String a pre), suf, c'. auto. }
    assert (Hhere : forall adv g c', match_at p adv b (String a s) = Some (g, c') ->
              exists pre suf c', String a s = pre +:+ suf
                /\ matches p [] (Cursor (after b pre) 0 suf) g c').
    { intros adv g c' E. exists EmptyString, (String a s), c'.
      split; [reflexivity | eapply match_at_sound; eassumption]. }
    cbn in Hin. destruct skip; [|eauto].
    destruct (match_at p false b (String a s)) as [[g c']|] eqn:E; [|eauto].
    destruct (pos c'); cbn in Hin.
    + destruct (match_at p true b (String a s)) as [[g2 c2]|] eqn:E2;
        cbn in Hin.
      * destruct Hin as [<-|[<-|Hin]]; eauto.
      * destruct Hin as [<-|Hin]; eauto.
    + destruct Hin as [<-|Hin]; eauto.
Qed.

End ReFacts.

(* ================================================================= *)
(** ** What the two patterns of scanner.py match *)

Module PatternFacts.
Import Re ReFacts.

#[local] Arguments String.append !s1 s2 : simpl nomatch.

Lemma matches_cons_inv it p g c g2 c2 :
  matches (it :: p) g c g2 c2 ->
  exists g1 c1, matches_item it g c g1 c1 /\ matches p g1 c1 g2 c2.
Proof. inversion 1; subst; eauto. Qed.

Lemma matches_nil_inv g c g' c' : matches [] g c g' c' -> g' = g /\ c' = c.
Proof. inversion 1; subst; auto. Qed.

Lemma matches_bol_inv g c g' c' :
  matches_item Bol g c g' c' -> g' = g /\ c' = c /\ bol c = true.
Proof. inversion 1; subst; auto. Qed.

Lemma matches_lit_inv s g c g' c' :
  matches_item (Lit s) g c g' c' -> g' = g /\ advance s c c'.
Proof. inversion 1; subst; auto. Qed.

Lemma matches_star_inv cls g c g' c' :
  matches_item (Star cls) g c g' c' ->
  g' = g /\ exists w, Py.all_chars cls w = true /\ advance w c c'.
Proof. inversion 1; subst; eauto. Qed.

Lemma matches_plus_inv cls g c g' c' :
  matches_item (Plus cls) g c g' c' ->
  g' = g /\ exists w, Py.all_chars cls w = true /\ w <> EmptyString /\ advance w c c'.
Proof. inversion 1; subst; eauto. Qed.

Lemma matches_group_inv n it g c g' c' :
  matches_item (Group n [it]) g c g' c' ->
  exists g1, matches_item it g c g1 c' /\ g' = (n, consumed c c') :: g1.
Proof.
  inversion 1 as [ | | | | ? ? ? ? ? ? M]; subst.
  apply matches_cons_inv in M as (g1 & c1 & M1 & M).
  apply matches_nil_inv in M as [-> ->]. eauto.
Qed.

Ltac head M M1 :=
  let g := fresh "g" in let c := fresh "c" in
  apply matches_cons_inv in M as (g & c & M1 & M).

Ltac star M w Hw A :=
  let M1 := fresh "M" in
  head M M1; apply matches_star_inv in M1 as (-> & w & Hw & A).

Ltac plus M w Hw Hne A :=
  let M1 := fresh "M" in
  head M M1; apply matches_plus_inv in M1 as (-> & w & Hw & Hne & A).

Ltac literal M A :=
  let M1 := fresh "M" in
  head M M1; apply matches_lit_inv in M1 as (-> & A).

Ltac chain :=
  repeat match goal with
         | A : advance _ _ _ |- _ => destruct A as [? _]
         end;
  congruence.

(** A match of the function pattern spans a definition, and its
    three captures are the return type, the name and the argument
    text. *)
Lemma func_pattern_shape (export_macro : string) (c c' : cursor) (g : groups) :
  matches (scanner.func_pattern (scanner.escape export_macro)) [] c g c' ->
  exists span rt name args,
    rest c = span +:+ rest c' /\ bol c = true
    /\ scanner.is_definition export_macro span rt name args
    /\ g = [(3, args); (2, name); (1, rt)].
Proof.
  unfold scanner.func_pattern, scanner.escape. intros M.
  head M M0. apply matches_bol_inv in M0 as (-> & -> & Hb).
  star M w0 Hw0 A0. literal M Am. plus M w1 Hw1 N1 A1.
  head M M1. apply matches_group_inv in M1 as (g1 & M1 & ->).
  apply matches_plus_inv in M1 as (-> & rt & Hrt & Nrt & Art).
  rewrite (advance_consumed _ _ _ Art) in M.
  plus M w2 Hw2 N2 A2.
  head M M2. apply matches_group_inv in M2 as (g2 & M2 & ->).
  apply matches_plus_inv in M2 as (-> & name & Hname & Nname & Aname).
  rewrite (advance_consumed _ _ _ Aname) in M.
  star M w3 Hw3 A3. literal M Alp.
  head M M3. apply matches_group_inv in M3 as (g3 & M3 & ->).
  apply matches_star_inv in M3 as (-> & args & Hargs & Aargs).
  rewrite (advance_consumed _ _ _ Aargs) in M.
  literal M Arp. star M w4 Hw4 A4. literal M Alb.
  apply matches_nil_inv in M as [-> ->].
  exists (w0 +:+ export_macro +:+ w1 +:+ rt +:+ w2 +:+ name +:+ w3
          +:+ "(" +:+ args +:+ ")" +:+ w4 +:+ "{"), rt, name, args.
  split; [|split; [assumption|split; [|reflexivity]]].
  - rewrite !append_assoc. chain.
  - exists w0, w1, w2, w3, w4. repeat split; assumption.
Qed.

(** A match of the macro pattern captures a word that is not empty. *)
Lemma macro_pattern_shape (c c' : cursor) (g : groups) :
  matches scanner.macro_pattern [] c g c' ->
  exists m, group g 1 = Some m /\ m <> EmptyString
            /\ Py.all_chars Py.isword m = true.
Proof.
  unfold scanner.macro_pattern. intros M.
  head M M0. apply matches_bol_inv in M0 as (-> & -> & Hb).
  star M w0 Hw0 A0. literal M Ad. plus M w1 Hw1 N1 A1.
  head M M1. apply matches_group_inv in M1 as (g1 & M1 & ->).
  apply matches_plus_inv in M1 as (-> & m & Hm & Nm & Am).
  rewrite (advance_consumed _ _ _ Am) in M.
  plus M w2 Hw2 N2 A2. literal M As. star M w3 Hw3 A3. literal M Alp.
  star M w4 Hw4 A4. literal M Ae. star M w5 Hw5 A5. literal M Arp.
  apply matches_nil_inv in M as [-> ->].
  exists m. auto.
Qed.

End PatternFacts.

(* ================================================================= *)
(** ** [int] reads back what [str] writes *)

Module PyFacts.

#[local] Arguments String.append !s1 s2 : simpl nomatch.

Lemma digits_string_of_uint (d : Decimal.uint) :
  Py.digits true (NilEmpty.string_of_uint d) = Some d.
Proof.
  induction d; cbn; try reflexivity; rewrite IHd; reflexivity.
Qed.

Lemma digits_string_of_uint_nonnil (d : Decimal.uint) :
  d <> Decimal.Nil -> Py.digits false (NilEmpty.string_of_uint d) = Some d.
Proof.
  destruct d; [congruence | ..]; intros _; cbn;
    rewrite digits_string_of_uint; reflexivity.
Qed.

Lemma decimal_string_of_uint (d : Decimal.uint) :
  Py.all_chars Py.isdecimal (NilEmpty.string_of_uint d) = true.
Proof. induction d; cbn; auto. Qed.

(** A text of digits has nothing for [int] to skip. *)
Lemma int_lskip_decimal (s : string) :
  Py.all_chars Py.isdecimal s = true -> Py.int_lskip s = s.
Proof.
  destruct s as [|c s]; [reflexivity|]. cbn. intros H.
  apply andb_prop in H as [Hc _].
  replace (Py.int_space c) with false; [reflexivity|].
  revert Hc. destruct c as [[] [] [] [] [] [] [] []]; vm_compute; congruence.
Qed.

Lemma int_rskip_decimal (s : string) :
  Py.all_chars Py.isdecimal s = true -> Py.int_rskip s = s.
Proof.
  induction s as [|c s IH]; [reflexivity|]. cbn. intros H.
  apply andb_prop in H as [Hc Hs]. rewrite (IH Hs).
  destruct s; [|reflexivity].
  replace (Py.int_space c) with false; [reflexivity|].
  revert Hc. destruct c as [[] [] [] [] [] [] [] []]; vm_compute; congruence.
Qed.

Lemma int_rskip_minus (s : string) :
  s <> EmptyString -> Py.int_rskip s = s ->
  Py.int_rskip (String "-" s) = String "-" s.
Proof. intros Hne H. cbn. rewrite H. destruct s; [congruence | reflexivity]. Qed.

Lemma digits_checked_string_of_uint (d : Decimal.uint) :
  d <> Decimal.Nil ->
  Py.digits_checked (NilEmpty.string_of_uint d) = Py.within_limit d.
Proof.
  intros Hn. unfold Py.digits_checked.
  rewrite digits_string_of_uint_nonnil by assumption. reflexivity.
Qed.

(** [int(str(z))], which is [z] again up to the limit on the digits
    and [ValueError] beyond it. *)
Lemma int_str_int_checked (z : Z) :
  Py.int (Py.str_int z)
  = if (Py.int_digits z <=? Py.max_str_digits)%nat then Some z else None.
Proof.
  unfold Py.str_int, Py.int_digits. rewrite <- (DecimalZ.of_to z) at 3.
  destruct z as [|q|q]; [reflexivity | |]; cbn [Z.to_int NilEmpty.string_of_int Z.of_int].
  - pose proof (Unsigned.to_uint_nonnil q) as Hn.
    pose proof (decimal_string_of_uint (Pos.to_uint q)) as Hd.
    unfold Py.int. rewrite int_lskip_decimal, int_rskip_decimal by assumption.
    pose proof (digits_checked_string_of_uint _ Hn) as Hdig.
    unfold Py.within_limit in Hdig.
    destruct (Pos.to_uint q) eqn:E; [congruence | ..];
      cbn [NilEmpty.string_of_uint] in Hdig |- *;
      change (Py.code_is 43 _) with false; change (Py.code_is 45 _) with false;
      cbv iota; rewrite Hdig;
      destruct (_ <=? Py.max_str_digits)%nat; reflexivity.
  - pose proof (Unsigned.to_uint_nonnil q) as Hn.
    pose proof (decimal_string_of_uint (Pos.to_uint q)) as Hd.
    pose proof (digits_checked_string_of_uint _ Hn) as Hdig.
    unfold Py.within_limit in Hdig.
    unfold Py.int. change (Py.int_lskip (String "-" ?s)) with (String "-" s).
    rewrite int_rskip_minus.
    + change (Py.code_is 43 "-") with false. change (Py.code_is 45 "-") with true.
      cbv iota. rewrite Hdig.
      destruct (_ <=? Py.max_str_digits)%nat; reflexivity.
    + destruct (Pos.to_uint q); [congruence | ..]; discriminate.
    + apply int_rskip_decimal. assumption.
Qed.

(** [int(str(z)) == z] *)
Lemma int_str_int (z : Z) :
  Py.int_digits z <= Py.max_str_digits -> Py.int (Py.str_int z) = Some z.
Proof.
  intros H. rewrite int_str_int_checked.
  apply Nat.leb_le in H. rewrite H. reflexivity.
Qed.

Lemma int_str_int_over (z : Z) :
  Py.max_str_digits < Py.int_digits z -> Py.int (Py.str_int z) = None.
Proof.
  intros H. rewrite int_str_int_checked.
  apply Nat.leb_gt in H. rewrite H. reflexivity.
Qed.

End PyFacts.

(* ================================================================= *)
(** ** What the argument parser accepts and rejects *)

Module ArgparseFacts.
Import Argparse.

#[local] Arguments String.append !s1 s2 : simpl nomatch.

Lemma is_argument_not_separator (s : string) :
  is_argument s -> String.eqb s "--" = false.
Proof.
  intros H. destruct (String.eqb_spec s "--") as [->|]; [|reflexivity].
  vm_compute in H. discriminate.
Qed.

Lemma classify_cons (s : string) (k : kind) (l : list string) :
  parse_optional s = Some k -> String.eqb s "--" = false ->
  classify (s :: l) = option_map (cons (k, s)) (classify l).
Proof. intros H1 H2. cbn. rewrite H1, H2. destruct (classify l); reflexivity. Qed.

(** The usual command line, [--version v --source s --out o]. *)
Lemma parse_args_canonical (v s o : string) :
  is_argument v -> is_argument s -> is_argument o ->
  parse_args ["--version"; v; "--source"; s; "--out"; o]
  = inr (Namespace v s o false).
Proof.
  intros Hv Hs Ho. unfold parse_args, parse_namespace.
  rewrite (classify_cons "--version" (Opt (Some Version) "--version" None))
    by reflexivity.
  rewrite (classify_cons v Arg) by auto using is_argument_not_separator.
  rewrite (classify_cons "--source" (Opt (Some Source) "--source" None))
    by reflexivity.
  rewrite (classify_cons s Arg) by auto using is_argument_not_separator.
  rewrite (classify_cons "--out" (Opt (Some Out) "--out" None)) by reflexivity.
  rewrite (classify_cons o Arg) by auto using is_argument_not_separator.
  reflexivity.
Qed.

Lemma split_eq_decimal (s : string) :
  Py.all_chars Py.isdecimal s = true -> split_eq s = None.
Proof.
  induction s as [|c s IH]; [reflexivity|]. cbn. intros H.
  apply andb_prop in H as [Hc Hs]. rewrite (IH Hs).
  replace (Py.code_is 61 c) with false; [reflexivity|].
  revert Hc. destruct c as [[] [] [] [] [] [] [] []]; vm_compute; congruence.
Qed.

Lemma drop_decimals_decimal (s : string) :
  Py.all_chars Py.isdecimal s = true -> drop_decimals s = EmptyString.
Proof.
  induction s as [|c s IH]; [reflexivity|]. cbn. intros H.
  apply andb_prop in H as [-> Hs]. auto.
Qed.

(** A dash and digits is an argument, not an option. *)
Lemma is_argument_negative (ds : string) :
  Py.all_chars Py.isdecimal ds = true -> ds <> EmptyString ->
  is_argument (String "-" ds).
Proof.
  destruct ds as [|c r]; [congruence|]. intros H _. cbn in H.
  apply andb_prop in H as [Hc Hr].
  pose proof (split_eq_decimal r Hr) as Hsplit.
  pose proof (drop_decimals_decimal r Hr) as Hdrop.
  unfold is_argument.
  destruct c as [[] [] [] [] [] [] [] []]; try (vm_compute in Hc; discriminate Hc);
    unfold parse_optional, option_tuples, negative_number; cbn;
    rewrite ?Hsplit; cbn; rewrite ?Hdrop; reflexivity.
Qed.

Lemma is_argument_decimal (ds : string) :
  Py.all_chars Py.isdecimal ds = true -> is_argument ds.
Proof.
  destruct ds as [|c r]; [reflexivity|]. intros H. cbn in H.
  apply andb_prop in H as [Hc _]. unfold is_argument, parse_optional.
  replace (Py.code_is 45 c) with false; [reflexivity|].
  revert Hc. destruct c as [[] [] [] [] [] [] [] []]; vm_compute; congruence.
Qed.

(** The text of an integer, negative or not, can follow [--version]. *)
Lemma is_argument_str_int (z : Z) : is_argument (Py.str_int z).
Proof.
  unfold Py.str_int. destruct z as [|q|q]; cbn [Z.to_int NilEmpty.string_of_int].
  - reflexivity.
  - apply is_argument_decimal, PyFacts.decimal_string_of_uint.
  - apply is_argument_negative; [apply PyFacts.decimal_string_of_uint|].
    pose proof (Unsigned.to_uint_nonnil q).
    destruct (Pos.to_uint q); [congruence | ..]; discriminate.
Qed.

(** *** Missing options *)

Lemma classify_no_opt (a : action) (l : list string) :
  ~ given a l -> forall ks, classify l = Some ks -> no_opt a ks.
Proof.
  induction l as [|s l IH]; intros Hng ks; cbn.
  - intros [= <-]. constructor.
  - destruct (String.eqb s "--").
    + intros [= <-]. constructor; [cbn; congruence|].
      apply Forall_forall. intros [k x] Hin. apply list_elem_of_In in Hin.
      apply in_map_iff in Hin as (y & [= <- <-] & _). cbn. congruence.
    + destruct (parse_optional s) as [k|] eqn:Hk; [|discriminate].
      destruct (classify l) as [ks'|]; [|discriminate].
      intros [= <-]. constructor.
      * cbn. intros o e ->. apply Hng. exists s, o, e. cbn. auto.
      * apply IH; [|reflexivity]. intros (s' & o & e & Hin & H).
        apply Hng. exists s', o, e. cbn. auto.
Qed.

Lemma finish_missing (a : action) (ns : partial) :
  required a -> slot a ns = None -> finish ns = inl UsageError.
Proof.
  unfold finish. intros [-> | [-> | ->]]; cbn; intros ->;
    repeat (destruct (_ ns)); reflexivity.
Qed.

Lemma slot_store_other (a a' : action) (v : stored) (ns : partial) :
  a' <> a -> slot a (store a' v ns) = slot a ns.
Proof. destruct a, a'; cbn; congruence. Qed.

Lemma consume_missing (a : action) (n : nat) :
  required a ->
  forall ks ns, List.length ks <= n -> no_opt a ks -> no_opt Help ks ->
    slot a ns = None -> consume ks ns = inl UsageError.
Proof.
  intros Hreq. induction n as [|n IH]; intros ks ns Hlen Ha Hh Hslot.
  - destruct ks; [|cbn in Hlen; lia]. cbn. eapply finish_missing; eassumption.
  - destruct ks as [|[k s] ks]; [cbn; eapply finish_missing; eassumption|].
    cbn in Hlen. inversion Ha as [|? ? Ha1 Ha2]; subst.
    inversion Hh as [|? ? Hh1 Hh2]; subst. cbn in Ha1, Hh1.
    assert (Hrec : forall ns', slot a ns' = None -> consume ks ns' = inl UsageError).
    { intros ns' H'. apply IH; [lia | assumption..]. }
    assert (Hextra : slot a (extra ns) = slot a ns) by (destruct a; reflexivity).
    assert (Htrue : slot a (store_true ns) = slot a ns) by (destruct a; reflexivity).
    destruct k as [| | [a'|] o e]; cbn;
      [apply Hrec; congruence | apply Hrec; congruence | | apply Hrec; congruence].
    assert (Hne : a' <> a) by (intros ->; eapply Ha1; reflexivity).
    assert (Hnh : a' <> Help) by (intros ->; eapply Hh1; reflexivity).
    destruct (takes_value a') eqn:Htv.
    + destruct e as [v|].
      * apply Hrec. rewrite slot_store_other; assumption.
      * destruct ks as [|[[| |] v] ks']; try reflexivity.
        inversion Ha2; subst. inversion Hh2; subst.
        apply IH; [cbn in Hlen; lia | assumption | assumption |].
        rewrite slot_store_other; assumption.
    + destruct (match e with None => true | Some _ => _ end); [|reflexivity].
      destruct a'; try congruence; try discriminate.
      apply Hrec. congruence.
Qed.

(** When a required option is not on the command line, and help is
    not asked for, the parser reports a usage error. *)
Lemma parse_namespace_missing (a : action) (arg_strings : list string) :
  required a -> ~ given a arg_strings -> ~ given Help arg_strings ->
  parse_namespace arg_strings = inl UsageError.
Proof.
  intros Hreq Ha Hh. unfold parse_namespace.
  destruct (classify arg_strings) as [ks|] eqn:E; [|reflexivity].
  apply (consume_missing a (List.length ks) Hreq); auto.
  - eapply classify_no_opt; eassumption.
  - eapply classify_no_opt; eassumption.
  - destruct Hreq as [-> | [-> | ->]]; reflexivity.
Qed.

Lemma parse_args_missing (a : action) (arg_strings : list string) :
  required a -> ~ given a arg_strings -> ~ given Help arg_strings ->
  parse_args arg_strings = inl UsageError.
Proof.
  intros Hreq Ha Hh. unfold parse_args.
  rewrite (parse_namespace_missing a) by assumption. reflexivity.
Qed.

(** *** The namespace of strings and the namespace of the parser *)

Lemma strings_Some (args : objects) (a : namespace) :
  strings args = Some a ->
  args = Objects (Text (version a)) (Text (source a)) (Text (out a)) (verbose a).
Proof.
  destruct args as [[v|] [s|] [o|] b]; cbn; try discriminate.
  intros [= <-]. reflexivity.
Qed.

Lemma parse_args_inr (arg_strings : list string) (a : namespace) :
  parse_args arg_strings = inr a <->
  parse_namespace arg_strings
  = inr (Objects (Text (version a)) (Text (source a)) (Text (out a)) (verbose a)).
Proof.
  unfold parse_args. split.
  - destruct (parse_namespace arg_strings) as [t|args]; [discriminate|].
    destruct (strings args) as [a'|] eqn:E; [|discriminate].
    intros [= ->]. apply strings_Some in E. congruence.
  - intros ->. destruct a; reflexivity.
Qed.

Lemma parse_args_inl (arg_strings : list string) (t : termination) :
  parse_args arg_strings = inl t ->
  parse_namespace arg_strings = inl t
  \/ (t = Uncaught TypeError
      /\ exists args, parse_namespace arg_strings = inr args /\ strings args = None).
Proof.
  unfold parse_args.
  destruct (parse_namespace arg_strings) as [t'|args]; [intros [= ->]; auto|].
  destruct (strings args) eqn:E; [discriminate|].
  intros [= <-]. right. eauto.
Qed.

End ArgparseFacts.

(* ================================================================= *)
(** ** Properties of scanner.py *)

Module ScannerFacts.
Import Re ReFacts PatternFacts Argparse Samples.

Lemma export_macro_of_Some (text m : string) :
  scanner.export_macro_of text = Some m -> m <> EmptyString.
Proof.
  unfold scanner.export_macro_of, search.
  destruct (search_from scanner.macro_pattern true text) as [[g c']|] eqn:E;
    [|discriminate].
  apply search_from_Some in E as (pre & suf & _ & E).
  apply match_at_sound, macro_pattern_shape in E as (m' & Hg & Hne & _).
  cbn. rewrite Hg. congruence.
Qed.

Lemma export_macro_of_None (text : string) :
  scanner.export_macro_of text = None <->
  (forall pre suf, text = pre +:+ suf -> ~ matches_at scanner.macro_pattern pre suf).
Proof.
  rewrite <- search_None. unfold scanner.export_macro_of, search.
  destruct (search_from scanner.macro_pattern true text) as [[g c']|] eqn:E;
    [|tauto].
  apply search_from_Some in E as (pre & suf & _ & E).
  apply match_at_sound, macro_pattern_shape in E as (m' & Hg & _).
  cbn. rewrite Hg. split; discriminate.
Qed.

Lemma functions_of_nil (export_macro text : string) :
  (forall pre suf, text = pre +:+ suf ->
     ~ matches_at (scanner.func_pattern (scanner.escape export_macro)) pre suf) ->
  scanner.functions_of export_macro text = [].
Proof.
  intros H. unfold scanner.functions_of, findall.
  destruct (findall_from _ 0 true text) as [|g l] eqn:E; [reflexivity|].
  exfalso.
  destruct (findall_from_sound
              (scanner.func_pattern (scanner.escape export_macro)) text 0 true g)
    as (pre & suf & c' & Hs & M).
  { rewrite E. left. reflexivity. }
  apply (H pre suf Hs). exists g, c'. exact M.
Qed.

(** The run when the parser ends it: nothing but the parser's
    verdict. *)
Lemma main_stopped (formatted_time : string) (argv : list string)
    (t : termination) (p : process) :
  parse_namespace (drop 1 argv) = inl t ->
  run (scanner.main formatted_time argv) p = (p, t).
Proof.
  intros H. unfold run, scanner.main, mbind, script_bind, bind.
  rewrite H. reflexivity.
Qed.

(** The run when the namespace holds a list: an uncaught exception,
    and the state is what it was. *)
Lemma main_list_valued (formatted_time : string) (argv : list string)
    (args : objects) (p : process) :
  parse_namespace (drop 1 argv) = inr args -> strings args = None ->
  exists e, run (scanner.main formatted_time argv) p = (p, Uncaught e).
Proof.
  intros H Hnone.
  unfold run, scanner.main, mbind, script_bind, bind, read_text, write_text,
    lift, raise, stop, mret, script_ret, ret, print.
  rewrite H. cbn.
  destruct (o_source args) as [s|] eqn:Es; cbn; [|eauto].
  destruct (files p !! s) as [text|]; [|eauto].
  destruct (negb (scanner.truthy (scanner.export_macro_of text))); [eauto|].
  destruct (o_version args) as [v|] eqn:Ev; cbn; [|eauto].
  destruct (Py.int v) as [z|]; cbn; [|eauto].
  destruct (o_out args) as [o|] eqn:Eo; cbn; [|eauto].
  unfold strings in Hnone. rewrite Es, Ev, Eo in Hnone. discriminate.
Qed.


Lemma main_usage (formatted_time : string) (argv : list string) (p : process) :
  parse_args (drop 1 argv) = inl UsageError ->
  run (scanner.main formatted_time argv) p = (p, UsageError).
Proof.
  intros H. apply ArgparseFacts.parse_args_inl in H as [H | (H & _)]; [|discriminate].
  apply main_stopped. assumption.
Qed.

(** The run when the arguments are accepted, step by step: the source
    is read, the macro is looked for, the version is converted, the
    report is written. *)
Lemma main_parsed (formatted_time : string) (argv : list string)
    (args : namespace) (p : process) :
  parse_args (drop 1 argv) = inr args ->
  run (scanner.main formatted_time argv) p =
  match files p !! source args with
  | None => (p, Uncaught (OSError (source args)))
  | Some text =>
      match scanner.export_macro_of text with
      | None => (p, Uncaught scanner.no_macro)
      | Some m =>
          match Py.int (version args) with
          | None => (p, Uncaught ValueError)
          | Some v =>
              if decide (out args ∈ unwritable p)
              then (p, Uncaught (OSError (out args)))
              else (scanner.after_success p args formatted_time v
                      (scanner.functions_of m text), SystemExit 0)
          end
      end
  end.
Proof.
  intros H. apply ArgparseFacts.parse_args_inr in H.
  unfold run, scanner.main, mbind, script_bind, bind, read_text, write_text,
    lift, raise, stop, mret, script_ret, ret, print, scanner.after_success.
  rewrite H. cbn.
  destruct (files p !! source args) as [text|]; [|reflexivity].
  destruct (scanner.export_macro_of text) as [m|] eqn:Em; [|reflexivity].
  apply export_macro_of_Some in Em. unfold scanner.truthy.
  destruct (String.eqb_spec m EmptyString) as [|_]; [contradiction|]. cbn.
  destruct (Py.int (version args)) as [v|]; [|reflexivity].
  destruct (decide (out args ∈ unwritable p)); [reflexivity|]. cbn.
  destruct (verbose args); reflexivity.
Qed.

(** C3.  When the macro pattern matches at no position of the source
    text, the run ends with the uncaught [RuntimeError] that names the
    missing macro (a traceback on standard error, exit code 1), and
    the process state is what it was: the output file is not
    written. *)
Theorem missing_macro_is_fatal (formatted_time : string) (argv : list string)
    (args : namespace) (text : string) (p : process) :
  parse_args (drop 1 argv) = inr args ->
  files p !! source args = Some text ->
  (forall pre suf, text = pre +:+ suf -> ~ matches_at scanner.macro_pattern pre suf) ->
  run (scanner.main formatted_time argv) p = (p, Uncaught scanner.no_macro)
  /\ exit_code (run (scanner.main formatted_time argv) p).2 = 1%Z
  /\ stderr (run (scanner.main formatted_time argv) p).2
     = Traceback (RuntimeError "No Windows dllexport macro found in source file").
Proof.
  intros Hargs Hfile Hno. apply export_macro_of_None in Hno.
  rewrite (main_parsed _ _ _ _ Hargs), Hfile, Hno. auto.
Qed.

(** C4, as amended.  Every record of [exported_functions] comes from
    one span of the source text that starts at the start of a line and
    is made of optional white space, the macro, white space, the
    return type, white space, the name, optional white space, the
    parenthesised argument text, optional white space and an opening
    brace.  The newline is white space and may stand in the argument
    text and in the return type: a definition that is broken over
    several lines in those places is captured. *)
Theorem captured_definition_shape (export_macro source_code : string) (f : value) :
  In f (scanner.functions_of export_macro source_code) ->
  (exists pre span post rt name args,
     source_code = pre +:+ span +:+ post
     /\ after true pre = true
     /\ scanner.is_definition export_macro span rt name args
     /\ f = VDict [("name", VStr name); ("return_type", VStr (Py.strip rt));
                   ("args", VStr (Py.strip args))])
  /\ Py.isspace Py.nl = true
  /\ scanner.not_rparen Py.nl = true
  /\ scanner.type_char Py.nl = true.
Proof.
  intros Hin. split; [|repeat split; reflexivity].
  unfold scanner.functions_of, findall in Hin.
  apply in_map_iff in Hin as (g & <- & Hin).
  apply findall_from_sound in Hin as (pre & suf & c' & -> & M).
  apply func_pattern_shape in M as (span & rt & name & args & Hr & Hb & Hd & ->).
  cbn in Hr, Hb. exists pre, span, (rest c'), rt, name, args.
  rewrite Hr. auto.
Qed.

(** C5, as amended.  When [argparse] rejects the command line, the run
    ends there with the usage message on standard error and exit code
    2, and no file is read or written; this is so in particular when a
    required option is not given and help is not asked for.  A value
    of [--version] that is not an integer is not rejected there: the
    run goes on to read the source, and ends with an uncaught
    exception, which is the [ValueError] of [int] when the source can
    be read and holds the macro; nothing is written. *)
Theorem rejected_arguments_stop_before_io :
  (forall formatted_time argv p,
     parse_args (drop 1 argv) = inl UsageError ->
     run (scanner.main formatted_time argv) p = (p, UsageError)
     /\ exit_code UsageError = 2%Z /\ stderr UsageError = UsageMessage)
  /\ (forall formatted_time prog arg_strings a p,
        required a -> ~ given a arg_strings -> ~ given Help arg_strings ->
        run (scanner.main formatted_time (prog :: arg_strings)) p = (p, UsageError))
  /\ (forall formatted_time argv args p,
        parse_args (drop 1 argv) = inr args ->
        Py.int (version args) = None ->
        exists e,
          run (scanner.main formatted_time argv) p = (p, Uncaught e)
          /\ (forall text m,
                files p !! source args = Some text ->
                scanner.export_macro_of text = Some m -> e = ValueError)).
Proof.
  split; [|split].
  - intros ts argv p H. rewrite (main_usage _ _ _ H). auto.
  - intros ts prog l a p Hreq Ha Hh. apply main_usage. cbn.
    rewrite drop_0. eapply ArgparseFacts.parse_args_missing; eassumption.
  - intros ts argv args p Hargs Hv. rewrite (main_parsed _ _ _ _ Hargs), Hv.
    destruct (files p !! source args) as [text|].
    + destruct (scanner.export_macro_of text) as [m|] eqn:Em.
      * exists ValueError. auto.
      * exists scanner.no_macro. split; [reflexivity|].
        intros ? ? [= <-] ?. congruence.
    + exists (OSError (source args)). split; [reflexivity | discriminate].
Qed.

(** C7.  When the source holds the macro definition and the function
    pattern derived from it matches at no position, the run (with an
    integer for [--version] and an output path that can be written)
    ends with exit code 0 and writes the report whose
    [exported_functions] is the empty list. *)
Theorem no_definition_empty_report (formatted_time : string)
    (argv : list string) (args : namespace) (text m : string) (v : Z)
    (p : process) :
  parse_args (drop 1 argv) = inr args ->
  files p !! source args = Some text ->
  scanner.export_macro_of text = Some m ->
  (forall pre suf, text = pre +:+ suf ->
     ~ matches_at (scanner.func_pattern (scanner.escape m)) pre suf) ->
  Py.int (version args) = Some v ->
  out args ∉ unwritable p ->
  run (scanner.main formatted_time argv) p
  = (scanner.after_success p args formatted_time v [], SystemExit 0)
  /\ files (run (scanner.main formatted_time argv) p).1 !! out args
     = Some (Json.dumps (Some 3)
               (VDict [("schema_version", VInt v);
                       ("source", VStr (source args));
                       ("timestamp", VStr formatted_time);
                       ("exported_functions", VList [])])).
Proof.
  intros Hargs Hfile Hm Hno Hv Hout.
  rewrite (main_parsed _ _ _ _ Hargs), Hfile, Hm, Hv, (functions_of_nil _ _ Hno).
  destruct (decide (out args ∈ unwritable p)); [contradiction|].
  split; [reflexivity|]. cbn. apply lookup_insert_eq.
Qed.

(** C8, as amended.  For every integer [v] whose decimal text has at
    most [Py.max_str_digits] digits (4300, the limit of [int()]), zero
    and the negative ones included, the run with [--version] followed
    by the text of [v] writes a report whose [schema_version] is
    [v]. *)
Theorem schema_version_is_the_argument (v : Z) (formatted_time prog s o : string)
    (text m : string) (p : process) :
  is_argument s -> is_argument o ->
  files p !! s = Some text ->
  scanner.export_macro_of text = Some m ->
  o ∉ unwritable p ->
  Py.int_digits v <= Py.max_str_digits ->
  let argv := [prog; "--version"; Py.str_int v; "--source"; s; "--out"; o] in
  (run (scanner.main formatted_time argv) p).2 = SystemExit 0
  /\ files (run (scanner.main formatted_time argv) p).1 !! o
     = Some (Json.dumps (Some 3)
               (VDict [("schema_version", VInt v);
                       ("source", VStr s);
                       ("timestamp", VStr formatted_time);
                       ("exported_functions", VList (scanner.functions_of m text))])).
Proof.
  intros Hs Ho Hfile Hm Hout Hd argv.
  assert (Hargs : parse_args (drop 1 argv) = inr (Namespace (Py.str_int v) s o false)).
  { apply ArgparseFacts.parse_args_canonical;
      auto using ArgparseFacts.is_argument_str_int. }
  rewrite (main_parsed _ _ _ _ Hargs). cbn [source version out].
  rewrite Hfile, Hm, (PyFacts.int_str_int _ Hd).
  destruct (decide (o ∈ unwritable p)); [contradiction|].
  split; [reflexivity|]. cbn. apply lookup_insert_eq.
Qed.

(** C9.  When a run went through, a second run with the same
    arguments, at any later time and in any state in which the source
    file has the same text and the output path can be written, goes
    through as well and writes a report with the same
    [exported_functions] (and the same [schema_version] and
    [source]); the output file then holds the second report, whatever
    it held before. *)
Theorem second_run_same_functions (time1 time2 : string) (argv : list string)
    (args : namespace) (p p1 p' : process) :
  parse_args (drop 1 argv) = inr args ->
  run (scanner.main time1 argv) p = (p1, SystemExit 0) ->
  files p' !! source args = files p !! source args ->
  out args ∉ unwritable p' ->
  exists v functions,
    p1 = scanner.after_success p args time1 v functions
    /\ run (scanner.main time2 argv) p'
       = (scanner.after_success p' args time2 v functions, SystemExit 0)
    /\ files (run (scanner.main time2 argv) p').1 !! out args
       = Some (Json.dumps (Some 3)
                 (scanner.data_of v (source args) time2 functions)).
Proof.
  intros Hargs Hrun Hsame Hout.
  rewrite (main_parsed _ _ _ _ Hargs) in Hrun.
  rewrite (main_parsed _ _ _ _ Hargs), Hsame.
  destruct (files p !! source args) as [text|]; [|discriminate].
  destruct (scanner.export_macro_of text) as [m|]; [|discriminate].
  destruct (Py.int (version args)) as [v|]; [|discriminate].
  destruct (decide (out args ∈ unwritable p)); [discriminate|].
  injection Hrun as <-.
  destruct (decide (out args ∈ unwritable p')); [contradiction|].
  exists v, (scanner.functions_of m text).
  repeat split. cbn. apply lookup_insert_eq.
Qed.

(** *** The theorems at the sample inputs *)

Lemma missing_macro_is_fatal_witness :
  run (scanner.main noon (argv_of "3" "plain.c" "o.json")) sample_process
  = (sample_process, Uncaught scanner.no_macro).
Proof.
  apply (missing_macro_is_fatal noon (argv_of "3" "plain.c" "o.json")
           (Namespace "3" "plain.c" "o.json" false) "int x;" sample_process).
  - reflexivity.
  - vm_compute. reflexivity.
  - apply export_macro_of_None. vm_compute. reflexivity.
Defined.

Lemma captured_definition_shape_witness :
  exists pre span post rt name args,
    multi_line_source = pre +:+ span +:+ post
    /\ after true pre = true
    /\ scanner.is_definition "MYAPI" span rt name args
    /\ multi_line_entry
       = VDict [("name", VStr name); ("return_type", VStr (Py.strip rt));
                ("args", VStr (Py.strip args))].
Proof.
  apply (captured_definition_shape "MYAPI" multi_line_source multi_line_entry).
  vm_compute. left. reflexivity.
Defined.

(** C4, as stated, fails: a definition whose text has two line breaks
    before the closing parenthesis of its arguments is captured. *)
Lemma multi_line_definition_is_captured :
  Py.has_char Py.nl multi_line_definition = true
  /\ scanner.export_macro_of multi_line_source = Some "MYAPI"
  /\ scanner.functions_of "MYAPI" multi_line_source = [multi_line_entry].
Proof. repeat split; vm_compute; reflexivity. Qed.

Lemma rejected_arguments_stop_before_io_witness :
  run (scanner.main noon ["scanner.py"; "--source"; "s.c"; "--out"; "o.json"])
      sample_process
  = (sample_process, UsageError).
Proof.
  apply (proj1 (proj2 rejected_arguments_stop_before_io) noon "scanner.py"
           ["--source"; "s.c"; "--out"; "o.json"] Version sample_process).
  - left. reflexivity.
  - intros (s & o & e & Hin & H). cbn in Hin.
    destruct Hin as [<-|[<-|[<-|[<-|[]]]]]; vm_compute in H; discriminate H.
  - intros (s & o & e & Hin & H). cbn in Hin.
    destruct Hin as [<-|[<-|[<-|[<-|[]]]]]; vm_compute in H; discriminate H.
Defined.

(** C5, as stated, fails: a [--version] that is not an integer passes
    the argument parser.  The run ends with the [ValueError] of [int],
    not with a usage error, and it has opened the source file before:
    where that file is missing, the run ends with the error of
    [open]. *)
Lemma bad_version_passes_argument_parsing :
  parse_args (drop 1 (argv_of "abc" "s.c" "o.json"))
  = inr (Namespace "abc" "s.c" "o.json" false)
  /\ run (scanner.main noon (argv_of "abc" "s.c" "o.json")) sample_process
     = (sample_process, Uncaught ValueError)
  /\ stderr (Uncaught ValueError) <> UsageMessage
  /\ run (scanner.main noon (argv_of "abc" "s.c" "o.json")) empty_process
     = (empty_process, Uncaught (OSError "s.c")).
Proof.
  repeat split; try (vm_compute; reflexivity). discriminate.
Qed.

Lemma no_definition_empty_report_witness :
  run (scanner.main noon (argv_of "0" "macro.c" "o.json")) sample_process
  = (scanner.after_success sample_process (Namespace "0" "macro.c" "o.json" false)
       noon 0 [], SystemExit 0).
Proof.
  apply (no_definition_empty_report noon (argv_of "0" "macro.c" "o.json")
           (Namespace "0" "macro.c" "o.json" false)
           "#define MYAPI __declspec(dllexport)" "MYAPI" 0 sample_process).
  - reflexivity.
  - vm_compute. reflexivity.
  - vm_compute. reflexivity.
  - intros pre suf Hs [g [c' M]].
    assert (H : search (scanner.func_pattern (scanner.escape "MYAPI"))
                  "#define MYAPI __declspec(dllexport)" = None)
      by (vm_compute; reflexivity).
    apply search_None with (pre := pre) (suf := suf) in H; [|assumption].
    apply H. exists g, c'. exact M.
  - reflexivity.
  - apply not_elem_of_empty.
Defined.

Lemma schema_version_is_the_argument_witness :
  (run (scanner.main noon (argv_of "-7" "s.c" "o.json")) sample_process).2
  = SystemExit 0
  /\ files (run (scanner.main noon (argv_of "-7" "s.c" "o.json")) sample_process).1
       !! "o.json"
     = Some (Json.dumps (Some 3)
               (VDict [("schema_version", VInt (-7));
                       ("source", VStr "s.c");
                       ("timestamp", VStr noon);
                       ("exported_functions",
                        VList (scanner.functions_of "MYAPI" (foo_source foo_tail)))])).
Proof.
  apply (schema_version_is_the_argument (-7) noon "scanner.py" "s.c" "o.json"
           (foo_source foo_tail) "MYAPI" sample_process).
  - reflexivity.
  - reflexivity.
  - vm_compute. reflexivity.
  - vm_compute. reflexivity.
  - apply not_elem_of_empty.
  - apply Nat.leb_le. vm_compute. reflexivity.
Defined.

(** C8, as stated, fails: the integer written with 4301 nines is
    accepted by the argument parser and refused by [int()], which
    converts no more than 4300 digits; the run ends with the uncaught
    [ValueError], exit code 1, and the output file is not written. *)
Lemma version_beyond_the_digit_limit :
  String.length long_version = 4301
  /\ Py.all_chars (Py.between 49 57) long_version = true
  /\ parse_args (drop 1 (argv_of long_version "s.c" "o.json"))
     = inr (Namespace long_version "s.c" "o.json" false)
  /\ Py.int long_version = None
  /\ run (scanner.main noon (argv_of long_version "s.c" "o.json")) sample_process
     = (sample_process, Uncaught ValueError)
  /\ exit_code (Uncaught ValueError) = 1%Z
  /\ files sample_process !! "o.json" = None.
Proof.
  split; [vm_compute; reflexivity|].
  split; [vm_compute; reflexivity|].
  split; [vm_compute; reflexivity|].
  split; [vm_compute; reflexivity|].
  split; [vm_compute; reflexivity|].
  split; vm_compute; reflexivity.
Qed.

Lemma second_run_same_functions_witness :
  exists v functions,
    after_first_run
    = scanner.after_success sample_process (Namespace "3" "s.c" "o.json" false)
        noon v functions
    /\ run (scanner.main later (argv_of "3" "s.c" "o.json")) after_first_run
       = (scanner.after_success after_first_run (Namespace "3" "s.c" "o.json" false)
            later v functions, SystemExit 0)
    /\ files (run (scanner.main later (argv_of "3" "s.c" "o.json")) after_first_run).1
         !! "o.json"
       = Some (Json.dumps (Some 3) (scanner.data_of v "s.c" later functions)).
Proof.
  apply (second_run_same_functions noon later (argv_of "3" "s.c" "o.json")
           (Namespace "3" "s.c" "o.json" false) sample_process after_first_run
           after_first_run).
  - reflexivity.
  - vm_compute. reflexivity.
  - vm_compute. reflexivity.
  - apply not_elem_of_empty.
Defined.

End ScannerFacts.

(* ================================================================= *)
(** ** More on read_config.py: every configuration, every label list *)

Module ReadConfigMore.
Import Samples.

(** X1.  Only the first label is ever looked at, whatever
    [config.json] holds (an object, another value, or nothing that can
    be decoded): the run with further labels is the run with the first
    label alone. *)
Theorem later_labels_are_ignored (config_json : exn + value)
    (prog label : string) (later : list string) (p : process) :
  run (read_config.main config_json (prog :: label :: later)) p
  = run (read_config.main config_json [prog; label]) p.
Proof.
  unfold run, read_config.main; cbn.
  unfold mbind, script_bind, bind, lift; cbn.
  destruct config_json as [e|config]; cbn; [reflexivity|].
  destruct (read_config.contains config label) as [e|[|]]; cbn; try reflexivity.
  destruct (read_config.getitem config label) as [e|x]; cbn; reflexivity.
Qed.

(** The run on a decoded configuration and at least one label. *)
Lemma main_on_label (config : value) (prog label : string)
    (later : list string) (p : process) :
  run (read_config.main (inr config) (prog :: label :: later)) p =
  match config with
  | VDict d =>
      match Value.lookup label d with
      | Some x =>
          (Process (stdout p +:+ Value.str x +:+ String Py.nl EmptyString)
                   (files p) (unwritable p), SystemExit 0)
      | None => (p, SystemExit 1)
      end
  | VList l =>
      if existsb (fun x => match x with
                           | VStr s => String.eqb s label
                           | _ => false
                           end) l
      then (p, Uncaught TypeError) else (p, SystemExit 1)
  | VStr s =>
      if Py.substring_of label s then (p, Uncaught TypeError) else (p, SystemExit 1)
  | _ => (p, Uncaught TypeError)
  end.
Proof.
  unfold run, read_config.main; cbn.
  unfold mbind, script_bind, bind, lift; cbn.
  destruct config as [| b | z | r | s | l | d]; cbn; try reflexivity.
  - destruct (Py.substring_of label s); reflexivity.
  - destruct (existsb _ l); reflexivity.
  - destruct (Value.lookup label d); reflexivity.
Qed.


(** X3.  A run that does not end with exit code 0 ends with exit code
    1 and has printed nothing: this covers the configuration that
    cannot be opened or decoded, the first label that is not a key,
    and the configuration that is not an object (where a label that
    [in] finds in an array or a string makes the subscript raise
    [TypeError]). *)
Theorem failure_is_silent_with_code_1 (config_json : exn + value)
    (argv : list string) (p : process) :
  exit_code (run (read_config.main config_json argv) p).2 <> 0%Z ->
  (run (read_config.main config_json argv) p).1 = p
  /\ exit_code (run (read_config.main config_json argv) p).2 = 1%Z.
Proof.
  destruct config_json as [e|config]; [auto|].
  destruct argv as [|prog [|label later]]; [intros H; elim H; reflexivity .. |].
  rewrite main_on_label.
  destruct config as [| b | z | r | s | l | d]; cbn; auto.
  - destruct (Py.substring_of label s); auto.
  - destruct (existsb _ l); auto.
  - destruct (Value.lookup label d); cbn; [intros H; elim H; reflexivity | auto].
Qed.

Lemma failure_is_silent_with_code_1_witness :
  (run (read_config.main (inr (VList [VStr "a"])) ["read_config.py"; "a"])
       empty_process).1 = empty_process
  /\ exit_code (run (read_config.main (inr (VList [VStr "a"]))
                       ["read_config.py"; "a"]) empty_process).2 = 1%Z.
Proof.
  apply (failure_is_silent_with_code_1 (inr (VList [VStr "a"]))
           ["read_config.py"; "a"] empty_process).
  vm_compute. discriminate.
Defined.

End ReadConfigMore.

(* ================================================================= *)
(** ** More on the matcher: where a match starts and what follows it *)

Module ReMore.
Import Re ReFacts.

#[local] Arguments String.append !s1 s2 : simpl nomatch.

(** A match reads a piece of the text. *)
Lemma matches_advance_mut :
  (forall it g c g' c', matches_item it g c g' c' -> exists w, advance w c c')
  /\ (forall p g c g' c', matches p g c g' c' -> exists w, advance w c c').
Proof.
  apply matches_mutind.
  - intros g c _. exists EmptyString. apply advance_nil.
  - intros s g c c' H. eauto.
  - intros cls w g c c' _ H. eauto.
  - intros cls w g c c' _ _ H. eauto.
  - intros n body g c g' c' _ IH. exact IH.
  - intros g c. exists EmptyString. apply advance_nil.
  - intros it p g c g1 c1 g2 c2 _ [u Hu] _ [v Hv].
    exists (u +:+ v). eapply advance_trans; eassumption.
Qed.

Lemma matches_advance (p : pattern) (g g' : groups) (c c' : cursor) :
  matches p g c g' c' -> exists w, advance w c c'.
Proof. apply (proj2 matches_advance_mut). Qed.

Lemma match_at_advance (p : pattern) (adv b : bool) (s : string)
    (g : groups) (c' : cursor) :
  match_at p adv b s = Some (g, c') ->
  exists w, s = w +:+ rest c' /\ bol c' = after b w /\ pos c' = String.length w.
Proof.
  intros H. apply match_at_sound, matches_advance in H as (w & H1 & H2 & H3).
  exists w. cbn in *. auto.
Qed.

(** [search] returns the match at the leftmost position that has
    one. *)
Lemma search_from_leftmost (p : pattern) (s : string) (b : bool) (r : result) :
  search_from p b s = Some r ->
  exists pre suf,
    s = pre +:+ suf
    /\ match_at p false (after b pre) suf = Some r
    /\ (forall pre' suf', s = pre' +:+ suf' ->
          String.length pre' < String.length pre ->
          match_at p false (after b pre') suf' = None).
Proof.
  revert b. induction s as [|a s IH]; intros b; cbn.
  - destruct (match_at p false b EmptyString) eqn:E; [|discriminate].
    intros [= <-]. exists EmptyString, EmptyString.
    repeat split; [assumption|]. cbn. intros; lia.
  - destruct (match_at p false b (String a s)) eqn:E.
    + intros [= <-]. exists EmptyString, (String a s).
      repeat split; [assumption|]. cbn. intros; lia.
    + intros H. apply IH in H as (pre & suf & -> & H & Hmin).
      exists (String a pre), suf. repeat split; [assumption|].
      intros [|x pre'] suf' Hs Hlen; cbn in Hs.
      * subst suf'. exact E.
      * injection Hs as <- Hs. cbn in Hlen. apply Hmin; [assumption | lia].
Qed.

(** [findall] finds nothing exactly when [search] finds nothing. *)
Lemma findall_from_nil (p : pattern) (s : string) (b : bool) :
  findall_from p 0 b s = [] <-> search_from p b s = None.
Proof.
  revert b. induction s as [|a s IH]; intros b; cbn.
  - destruct (match_at p false b EmptyString) as [[g c']|]; [|tauto].
    split; [|discriminate].
    destruct (pos c'); [|discriminate].
    destruct (match_at p true b EmptyString) as [[g2 c2]|]; discriminate.
  - destruct (match_at p false b (String a s)) as [[g c']|]; [|apply IH].
    split; [|discriminate].
    destruct (pos c'); [|discriminate].
    destruct (match_at p true b (String a s)) as [[g2 c2]|]; discriminate.
Qed.

(** Skipping the characters of a match is starting afresh after
    them. *)
Lemma findall_from_skip (p : pattern) (w r : string) (b : bool) :
  findall_from p (String.length w) b (w +:+ r) = findall_from p 0 (after b w) r.
Proof.
  revert b. induction w as [|a w IH]; intros b; [reflexivity|].
  cbn. apply IH.
Qed.

(** [findall] is the first match [search] finds, when it is not empty,
    followed by what [findall] finds in the text after that match. *)
Lemma findall_from_first (p : pattern) (s : string) (b : bool)
    (g : groups) (c' : cursor) :
  search_from p b s = Some (g, c') -> pos c' <> 0 ->
  findall_from p 0 b s = g :: findall_from p 0 (bol c') (rest c').
Proof.
  intros H Hpos.
  assert (Hhere : forall b s, match_at p false b s = Some (g, c') ->
            findall_from p 0 b s = g :: findall_from p 0 (bol c') (rest c')).
  { clear H. intros b0 s0 E.
    destruct (match_at_advance _ _ _ _ _ _ E) as (w & -> & Hb & Hp).
    destruct w as [|a w]; [cbn in Hp; congruence|].
    change (String a w +:+ rest c') with (String a (w +:+ rest c')) in *.
    cbn [findall_from]. rewrite E, Hp. cbn [String.length].
    rewrite findall_from_skip, Hb. reflexivity. }
  revert b H. induction s as [|a s IH]; intros b; cbn [search_from].
  - destruct (match_at p false b EmptyString) as [[g0 c0]|] eqn:E; [|discriminate].
    intros [= -> ->]. apply Hhere. exact E.
  - destruct (match_at p false b (String a s)) as [[g0 c0]|] eqn:E.
    + intros [= -> ->]. apply Hhere. exact E.
    + intros H. cbn [findall_from]. rewrite E. apply IH. exact H.
Qed.

End ReMore.

(* ================================================================= *)
(** ** More on scanner.py: discovery of the macro and of the functions *)

Module ScannerMore.
Import Re ReFacts ReMore PatternFacts Argparse Samples.

#[local] Arguments String.append !s1 s2 : simpl nomatch.

(** A match of the macro pattern spans a macro definition, and its
    capture is the macro. *)
Lemma macro_pattern_span (c c' : cursor) (g : groups) :
  matches scanner.macro_pattern [] c g c' ->
  exists span m,
    rest c = span +:+ rest c' /\ bol c = true
    /\ scanner.is_macro_definition m span /\ group g 1 = Some m.
Proof.
  unfold scanner.macro_pattern. intros M.
  head M M0. apply matches_bol_inv in M0 as (-> & -> & Hb).
  star M w0 Hw0 A0. literal M Ad. plus M w1 Hw1 N1 A1.
  head M M1. apply matches_group_inv in M1 as (g1 & M1 & ->).
  apply matches_plus_inv in M1 as (-> & m & Hm & Nm & Am).
  rewrite (advance_consumed _ _ _ Am) in M.
  plus M w2 Hw2 N2 A2. literal M As. star M w3 Hw3 A3. literal M Alp.
  star M w4 Hw4 A4. literal M Ae. star M w5 Hw5 A5. literal M Arp.
  apply matches_nil_inv in M as [-> ->].
  exists (w0 +:+ "#define" +:+ w1 +:+ m +:+ w2 +:+ "__declspec"
          +:+ w3 +:+ "(" +:+ w4 +:+ "dllexport" +:+ w5 +:+ ")"), m.
  split; [|split; [assumption|split; [|reflexivity]]].
  - rewrite !append_assoc. chain.
  - exists w0, w1, w2, w3, w4, w5. repeat split; assumption.
Qed.

(** A match of the function pattern ends after an opening brace: it is
    not empty, and what follows it is not at the start of a line. *)
Lemma func_pattern_end (export_macro : string) (c c' : cursor) (g : groups) :
  matches (scanner.func_pattern (scanner.escape export_macro)) [] c g c' ->
  bol c' = false /\ pos c' <> 0.
Proof.
  unfold scanner.func_pattern, scanner.escape. intros M.
  head M M0. apply matches_bol_inv in M0 as (-> & -> & Hb).
  star M w0 Hw0 A0. literal M Am. plus M w1 Hw1 N1 A1.
  head M M1. apply matches_group_inv in M1 as (g1 & M1 & ->).
  apply matches_plus_inv in M1 as (-> & rt & Hrt & Nrt & Art).
  plus M w2 Hw2 N2 A2.
  head M M2. apply matches_group_inv in M2 as (g2 & M2 & ->).
  apply matches_plus_inv in M2 as (-> & name & Hname & Nname & Aname).
  star M w3 Hw3 A3. literal M Alp.
  head M M3. apply matches_group_inv in M3 as (g3 & M3 & ->).
  apply matches_star_inv in M3 as (-> & args & Hargs & Aargs).
  literal M Arp. star M w4 Hw4 A4. literal M Alb.
  apply matches_nil_inv in M as [-> ->].
  destruct Alb as (_ & Hb' & Hp'). cbn in Hb', Hp'. split; [assumption | lia].
Qed.

(** X4.  The [RuntimeError] about the macro is raised only when the
    macro is absent: a run that ends with it has read a source text in
    which the macro pattern matches at no position. *)
Theorem no_macro_error_only_without_macro (formatted_time : string)
    (argv : list string) (args : namespace) (p : process) :
  parse_args (drop 1 argv) = inr args ->
  (run (scanner.main formatted_time argv) p).2 = Uncaught scanner.no_macro ->
  exists text,
    files p !! source args = Some text
    /\ (forall pre suf, text = pre +:+ suf ->
          ~ matches_at scanner.macro_pattern pre suf).
Proof.
  intros Hargs. rewrite (ScannerFacts.main_parsed _ _ _ _ Hargs).
  destruct (files p !! source args) as [text|]; [|discriminate].
  destruct (scanner.export_macro_of text) as [m|] eqn:Em.
  - destruct (Py.int (version args)); [|discriminate].
    destruct (decide (out args ∈ unwritable p)); discriminate.
  - intros _. exists text. split; [reflexivity|].
    apply ScannerFacts.export_macro_of_None. exact Em.
Qed.

(** X5.  The macro the scanner uses is the one of the first macro
    definition of the text: it is captured from a span that starts at
    the start of a line and has the shape of a macro definition, and
    the pattern matches at no earlier position.  Later definitions
    play no part. *)
Theorem discovered_macro_is_the_first (text m : string) :
  scanner.export_macro_of text = Some m ->
  exists pre span post,
    text = pre +:+ span +:+ post
    /\ after true pre = true
    /\ scanner.is_macro_definition m span
    /\ (forall pre' suf', text = pre' +:+ suf' ->
          String.length pre' < String.length pre ->
          ~ matches_at scanner.macro_pattern pre' suf').
Proof.
  unfold scanner.export_macro_of, search.
  destruct (search_from scanner.macro_pattern true text) as [[g c']|] eqn:E;
    [|discriminate].
  apply search_from_leftmost in E as (pre & suf & -> & E & Hmin).
  apply match_at_sound, macro_pattern_span in E as (span & m' & Hr & Hb & Hd & Hg).
  cbn in Hr, Hb |- *. rewrite Hg. intros [= <-]. subst suf.
  exists pre, span, (rest c'). repeat split; try assumption.
  intros pre' suf' Hs Hlen [g' [c'' M]].
  specialize (Hmin pre' suf' Hs Hlen).
  apply match_at_complete in M as [r Hr']. congruence.
Qed.

(** X6.  [exported_functions] is empty exactly when the function
    pattern matches at no position of the text: a definition anywhere
    gives at least one record. *)
Theorem functions_empty_iff_no_match (export_macro text : string) :
  scanner.functions_of export_macro text = []
  <->
  (forall pre suf, text = pre +:+ suf ->
     ~ matches_at (scanner.func_pattern (scanner.escape export_macro)) pre suf).
Proof.
  split; [|apply ScannerFacts.functions_of_nil].
  unfold scanner.functions_of, findall. intros H.
  apply map_eq_nil in H. apply findall_from_nil in H.
  apply search_None. unfold search. rewrite H. reflexivity.
Qed.

(** X7.  The records are in the order of the text and their spans do
    not overlap: the first record is that of the leftmost match, and
    the others are the records found in the text that follows that
    match, read as the rest of the line of its opening brace. *)
Theorem functions_first_then_rest (export_macro text : string)
    (g : groups) (c' : cursor) :
  search_from (scanner.func_pattern (scanner.escape export_macro)) true text
  = Some (g, c') ->
  (exists pre span, text = pre +:+ span +:+ rest c'
     /\ forall pre' suf', text = pre' +:+ suf' ->
          String.length pre' < String.length pre ->
          ~ matches_at (scanner.func_pattern (scanner.escape export_macro)) pre' suf')
  /\ scanner.functions_of export_macro text
     = scanner.entry g
       :: List.map scanner.entry
            (findall_from (scanner.func_pattern (scanner.escape export_macro))
               0 false (rest c')).
Proof.
  intros H. split.
  - apply search_from_leftmost in H as (pre & suf & -> & E & Hmin).
    destruct (match_at_advance _ _ _ _ _ _ E) as (w & -> & _).
    exists pre, w. split; [reflexivity|].
    intros pre' suf' Hs Hlen [g' [c'' M]].
    specialize (Hmin pre' suf' Hs Hlen).
    apply match_at_complete in M as [r Hr']. congruence.
  - assert (Hend : bol c' = false /\ pos c' <> 0).
    { apply search_from_Some in H as (pre & suf & _ & E).
      apply match_at_sound in E. eapply func_pattern_end. exact E. }
    destruct Hend as [Hb Hp].
    unfold scanner.functions_of, findall.
    rewrite (findall_from_first _ _ _ _ _ H Hp), Hb. reflexivity.
Qed.

(** *** The fields of a record *)

Lemma lstrip_head_ok (s : string) : Py.head_ok (Py.lstrip s) = true.
Proof.
  induction s as [|c s IH]; [reflexivity|]. cbn [Py.lstrip].
  destruct (Py.isspace c) eqn:E; [exact IH|]. cbn. rewrite E. reflexivity.
Qed.

Lemma lstrip_fixed (s : string) : Py.head_ok s = true -> Py.lstrip s = s.
Proof.
  destruct s as [|c s]; [reflexivity|]. cbn.
  destruct (Py.isspace c); [discriminate | reflexivity].
Qed.

Lemma rstrip_head_ok (s : string) :
  Py.head_ok s = true -> Py.head_ok (Py.rstrip s) = true.
Proof.
  destruct s as [|c s]; [reflexivity|]. cbn [Py.head_ok Py.rstrip]. intros H.
  destruct (Py.rstrip s); [|exact H].
  destruct (Py.isspace c) eqn:E; [discriminate H | cbn; rewrite E; reflexivity].
Qed.

Lemma rstrip_idempotent (s : string) : Py.rstrip (Py.rstrip s) = Py.rstrip s.
Proof.
  induction s as [|c s IH]; [reflexivity|]. cbn.
  destruct (Py.rstrip s) as [|d r] eqn:E.
  - destruct (Py.isspace c) eqn:Hc; [reflexivity|]. cbn. rewrite Hc. reflexivity.
  - change (Py.rstrip (String c (String d r)))
      with (match Py.rstrip (String d r) with
            | EmptyString => if Py.isspace c then EmptyString else String c EmptyString
            | x => String c x
            end).
    rewrite IH. reflexivity.
Qed.

(** What [strip] returns has no white space at either end. *)
Lemma strip_fixed (s : string) :
  Py.lstrip (Py.strip s) = Py.strip s /\ Py.rstrip (Py.strip s) = Py.strip s.
Proof.
  unfold Py.strip. split.
  - apply lstrip_fixed, rstrip_head_ok, lstrip_head_ok.
  - apply rstrip_idempotent.
Qed.

Lemma all_chars_lstrip (cls : ascii -> bool) (s : string) :
  Py.all_chars cls s = true -> Py.all_chars cls (Py.lstrip s) = true.
Proof.
  induction s as [|c s IH]; [reflexivity|]. cbn. intros H.
  destruct (Py.isspace c); [|assumption].
  apply andb_prop in H as [_ H]. auto.
Qed.

Lemma all_chars_rstrip (cls : ascii -> bool) (s : string) :
  Py.all_chars cls s = true -> Py.all_chars cls (Py.rstrip s) = true.
Proof.
  induction s as [|c s IH]; [reflexivity|]. cbn. intros H.
  apply andb_prop in H as [Hc H]. specialize (IH H).
  destruct (Py.rstrip s); cbn.
  - destruct (Py.isspace c); cbn; [reflexivity | rewrite Hc; reflexivity].
  - cbn in IH. rewrite Hc, IH. reflexivity.
Qed.

(** X8.  Every record of [exported_functions] has these three fields
    in this order, and: the name is a run of word characters that is
    not empty; the return type is made of word characters, white
    space and stars, the argument text has no closing parenthesis,
    and neither has white space at its start or at its end. *)
Theorem record_fields_are_clean (export_macro source_code : string) (f : value) :
  In f (scanner.functions_of export_macro source_code) ->
  exists name return_type args,
    f = VDict [("name", VStr name); ("return_type", VStr return_type);
               ("args", VStr args)]
    /\ name <> EmptyString /\ Py.all_chars Py.isword name = true
    /\ Py.all_chars scanner.type_char return_type = true
    /\ Py.lstrip return_type = return_type /\ Py.rstrip return_type = return_type
    /\ Py.all_chars scanner.not_rparen args = true
    /\ Py.lstrip args = args /\ Py.rstrip args = args.
Proof.
  intros Hin. unfold scanner.functions_of, findall in Hin.
  apply in_map_iff in Hin as (g & <- & Hin).
  apply findall_from_sound in Hin as (pre & suf & c' & _ & M).
  apply func_pattern_shape in M as (span & rt & name & args & _ & _ & Hd & ->).
  destruct Hd as (w0 & w1 & w2 & w3 & w4 & _ & _ & _ & _ & Hrt & _ & _ & _
                  & Hname & Nname & _ & Hargs & _).
  exists name, (Py.strip rt), (Py.strip args).
  destruct (strip_fixed rt) as [L1 R1]. destruct (strip_fixed args) as [L2 R2].
  repeat split; try assumption.
  - unfold Py.strip. apply all_chars_rstrip, all_chars_lstrip. assumption.
  - unfold Py.strip. apply all_chars_rstrip, all_chars_lstrip. assumption.
Qed.

End ScannerMore.

(* ================================================================= *)
(** ** The round trip: one macro line, one definition line *)

Module RoundTrip.
Import Re ReFacts ReMore Argparse Samples.

#[local] Arguments String.append !s1 s2 : simpl nomatch.
























End RoundTrip.

(* ================================================================= *)
(** ** More on scanner.py: what a run does to the files and how it ends *)

Module RunMore.
Import Argparse Samples.

(** The parser ends a run in two ways only. *)
Lemma consume_termination (n : nat) :
  forall ks ns t, List.length ks <= n -> consume ks ns = inl t ->
    t = UsageError \/ t = HelpExit.
Proof.
  assert (Hfin : forall ns t, finish ns = inl t -> t = UsageError \/ t = HelpExit).
  { intros ns t. unfold finish.
    destruct (p_version ns), (p_source ns), (p_out ns), (extras ns);
      intros [=]; auto. }
  induction n as [|n IH]; intros ks ns t Hlen H.
  - destruct ks; [|cbn in Hlen; lia]. eapply Hfin; eassumption.
  - destruct ks as [|[k s] ks]; [eapply Hfin; eassumption|].
    cbn in Hlen.
    assert (Hrec : forall ns', consume ks ns' = inl t -> t = UsageError \/ t = HelpExit).
    { intros ns'. apply IH. lia. }
    destruct k as [| | [a|] o e]; cbn in H; eauto.
    destruct (takes_value a).
    + destruct e as [v|]; [eauto|].
      destruct ks as [|[[| |] v] ks']; try (injection H as <-; auto).
      revert H. apply IH. cbn in Hlen. lia.
    + destruct (match e with None => true | Some _ => _ end);
        [|injection H as <-; auto].
      destruct a; try (injection H as <-; auto); eauto.
Qed.

Lemma parse_namespace_termination (arg_strings : list string) (t : termination) :
  parse_namespace arg_strings = inl t -> t = UsageError \/ t = HelpExit.
Proof.
  unfold parse_namespace. destruct (classify arg_strings) as [ks|].
  - apply (consume_termination (List.length ks)). lia.
  - intros [= <-]. auto.
Qed.



(** X11.  The exit code of the scanner is 0, 1 or 2; it is 2 exactly
    when the argument parser rejects the command line, and 1 exactly
    when an exception is not caught. *)
Theorem exit_codes (formatted_time : string) (argv : list string) (p : process) :
  (exit_code (run (scanner.main formatted_time argv) p).2 = 0%Z
   \/ exit_code (run (scanner.main formatted_time argv) p).2 = 1%Z
   \/ exit_code (run (scanner.main formatted_time argv) p).2 = 2%Z)
  /\ (exit_code (run (scanner.main formatted_time argv) p).2 = 2%Z
      <-> parse_args (drop 1 argv) = inl UsageError)
  /\ (exit_code (run (scanner.main formatted_time argv) p).2 = 1%Z
      <-> exists e, (run (scanner.main formatted_time argv) p).2 = Uncaught e).
Proof.
  destruct (parse_args (drop 1 argv)) as [t|args] eqn:Hargs.
  - apply ArgparseFacts.parse_args_inl in Hargs as [H | (-> & args & H & Hn)].
    + rewrite (ScannerFacts.main_stopped _ _ _ _ H).
      destruct (parse_namespace_termination _ _ H) as [-> | ->]; cbn;
        repeat split; auto; try discriminate; try (intros [e [=]]).
    + destruct (ScannerFacts.main_list_valued formatted_time _ _ p H Hn) as [e ->].
      cbn. repeat split; auto; try discriminate. eauto.
  - rewrite (ScannerFacts.main_parsed _ _ _ _ Hargs).
    assert (Hraise : forall e,
              (exit_code (p, Uncaught e).2 = 0%Z \/ exit_code (p, Uncaught e).2 = 1%Z
               \/ exit_code (p, Uncaught e).2 = 2%Z)
              /\ (exit_code (p, Uncaught e).2 = 2%Z <-> inr args = inl UsageError)
              /\ (exit_code (p, Uncaught e).2 = 1%Z
                  <-> exists e', (p, Uncaught e).2 = Uncaught e')).
    { intros e. cbn. repeat split; auto; try discriminate. eauto. }
    destruct (files p !! source args) as [text|]; [|apply Hraise].
    destruct (scanner.export_macro_of text) as [m|]; [|apply Hraise].
    destruct (Py.int (version args)) as [v|]; [|apply Hraise].
    destruct (decide (out args ∈ unwritable p)); [apply Hraise|].
    cbn. repeat split; auto; try discriminate. intros [e [=]].
Qed.


(** X17.  The values of the namespace are used in the order source,
    version, output, and each [open] fails before anything is
    changed.  A list stored for [--source] (the option given as
    [--source=--]) is a [TypeError] of [open], before any file is
    read.  When the source has been read, the macro found and the
    version converted, a list stored for [--out] is a [TypeError] of
    [open], and an output path that cannot be opened for writing is
    the [OSError] of [open] on that path. *)
Theorem open_errors_in_order (formatted_time : string) (argv : list string)
    (args : objects) (p : process) :
  parse_namespace (drop 1 argv) = inr args ->
  (o_source args = EmptyList ->
   run (scanner.main formatted_time argv) p = (p, Uncaught TypeError))
  /\ (forall s text m v,
        o_source args = Text s -> files p !! s = Some text ->
        scanner.export_macro_of text = Some m ->
        scanner.int_of (o_version args) = inr v ->
        (o_out args = EmptyList ->
         run (scanner.main formatted_time argv) p = (p, Uncaught TypeError))
        /\ (forall o, o_out args = Text o -> o ∈ unwritable p ->
              run (scanner.main formatted_time argv) p = (p, Uncaught (OSError o)))).
Proof.
  intros Hargs.
  unfold run, scanner.main, mbind, script_bind, bind, read_text, write_text,
    lift, raise, stop, mret, script_ret, ret, print.
  rewrite Hargs. cbn. split.
  - intros ->. reflexivity.
  - intros s text m v -> Hs Hm Hv. cbn. rewrite Hs, Hm.
    apply ScannerFacts.export_macro_of_Some in Hm. unfold scanner.truthy.
    destruct (String.eqb_spec m EmptyString) as [|_]; [contradiction|]. cbn.
    rewrite Hv. cbn. split.
    + intros ->. reflexivity.
    + intros o -> Ho. cbn.
      destruct (decide (o ∈ unwritable p)); [reflexivity | contradiction].
Qed.

End RunMore.

(* ================================================================= *)
(** ** More on the report: the text [json.dump] writes *)

Module JsonFacts.
Import Argparse Samples.

#[local] Arguments String.append !s1 s2 : simpl nomatch.

(** Induction over values, with the items of lists and objects. *)
Lemma value_ind' (P : value -> Prop) :
  P VNone -> (forall b, P (VBool b)) -> (forall z, P (VInt z)) ->
  (forall r, P (VFloat r)) -> (forall s, P (VStr s)) ->
  (forall l, Forall P l -> P (VList l)) ->
  (forall d, Forall (fun kx => P kx.2) d -> P (VDict d)) ->
  forall v, P v.
Proof.
  intros HN HB HZ HF HS HL HD. fix IH 1.
  intros [| b | z | r | s | l | d];
    [apply HN | apply HB | apply HZ | apply HF | apply HS | apply HL | apply HD].
  - induction l as [|x l IHl]; constructor; [apply IH | exact IHl].
  - induction d as [|[k x] d IHd]; constructor; [apply IH | exact IHd].
Qed.

Lemma plain_append (a b : string) :
  Py.all_chars Json.plain a = true -> Py.all_chars Json.plain b = true ->
  Py.all_chars Json.plain (a +:+ b) = true.
Proof. intros Ha Hb. rewrite ReFacts.all_chars_append, Ha, Hb. reflexivity. Qed.

Lemma plain_encode_char (c : ascii) :
  Py.all_chars Json.plain (Json.encode_char c) = true.
Proof. destruct c as [[] [] [] [] [] [] [] []]; vm_compute; reflexivity. Qed.

Lemma plain_encode_str (s : string) :
  Py.all_chars Json.plain (Json.encode_str s) = true.
Proof.
  unfold Json.encode_str. change (String Py.dquote ?x) with (String Py.dquote EmptyString +:+ x).
  apply plain_append; [reflexivity|]. apply plain_append; [|reflexivity].
  induction s as [|c s IH]; [reflexivity|]. cbn.
  apply plain_append; [apply plain_encode_char | exact IH].
Qed.

Lemma plain_decimal (s : string) :
  Py.all_chars Py.isdecimal s = true -> Py.all_chars Json.plain s = true.
Proof.
  induction s as [|c s IH]; [reflexivity|]. cbn. intros H.
  apply andb_prop in H as [Hc Hs]. rewrite (IH Hs), andb_true_r.
  revert Hc. destruct c as [[] [] [] [] [] [] [] []]; vm_compute; congruence.
Qed.

Lemma plain_str_int (z : Z) : Py.all_chars Json.plain (Py.str_int z) = true.
Proof.
  unfold Py.str_int.
  destruct z as [|q|q]; cbn [Z.to_int NilEmpty.string_of_int]; [reflexivity | |].
  - apply plain_decimal, PyFacts.decimal_string_of_uint.
  - change (Py.all_chars Json.plain
              ("-" +:+ NilEmpty.string_of_uint (Pos.to_uint q)) = true).
    apply plain_append; [reflexivity|].
    apply plain_decimal, PyFacts.decimal_string_of_uint.
Qed.

Lemma plain_spaces (n : nat) : Py.all_chars Json.plain (Json.spaces n) = true.
Proof. induction n; [reflexivity | exact IHn]. Qed.

Lemma plain_newline_indent (indent : option nat) (level : nat) :
  Py.all_chars Json.plain (Json.newline_indent indent level) = true.
Proof. destruct indent; [apply plain_spaces | reflexivity]. Qed.

Lemma plain_item_separator (indent : option nat) (level : nat) :
  Py.all_chars Json.plain (Json.item_separator indent level) = true.
Proof.
  destruct indent; [|reflexivity]. unfold Json.item_separator.
  apply plain_append; [reflexivity | apply plain_newline_indent].
Qed.

Lemma plain_concat (sep : string) (l : list string) :
  Py.all_chars Json.plain sep = true ->
  Forall (fun s => Py.all_chars Json.plain s = true) l ->
  Py.all_chars Json.plain (String.concat sep l) = true.
Proof.
  intros Hsep. induction 1 as [|x l Hx Hl IH]; [reflexivity|].
  cbn. destruct l; [exact Hx|].
  apply plain_append; [exact Hx|]. apply plain_append; [exact Hsep | exact IH].
Qed.

(** The text of a value without floats is plain ASCII. *)
Lemma plain_encode (indent : option nat) (v : value) :
  Json.float_free v = true ->
  forall level, Py.all_chars Json.plain (Json.encode indent level v) = true.
Proof.
  induction v as [| b | z | r | s | l IH | d IH] using value_ind';
    intros Hff level.
  - reflexivity.
  - destruct b; reflexivity.
  - apply plain_str_int.
  - discriminate.
  - apply plain_encode_str.
  - destruct l as [|x l]; [reflexivity|].
    cbn [Json.encode]. repeat apply plain_append;
      try reflexivity; try apply plain_newline_indent.
    apply plain_concat; [apply plain_item_separator|].
    cbn [Json.float_free] in Hff. revert Hff IH. generalize (x :: l). clear.
    intros l Hff IH. induction IH as [|y l Hy _ IHl]; [constructor|].
    cbn in Hff. apply andb_prop in Hff as [H1 H2].
    constructor; [apply Hy; exact H1 | apply IHl; exact H2].
  - destruct d as [|kx d]; [reflexivity|].
    cbn [Json.encode]. repeat apply plain_append;
      try reflexivity; try apply plain_newline_indent.
    apply plain_concat; [apply plain_item_separator|].
    cbn [Json.float_free] in Hff. revert Hff IH. generalize (kx :: d). clear.
    intros d Hff IH. induction IH as [|[k y] d Hy _ IHd]; [constructor|].
    cbn in Hff. apply andb_prop in Hff as [H1 H2].
    constructor; [|apply IHd; exact H2].
    apply plain_append; [apply plain_encode_str|].
    apply plain_append; [reflexivity|]. apply Hy. exact H1.
Qed.

Lemma float_free_functions (export_macro text : string) :
  forallb Json.float_free (scanner.functions_of export_macro text) = true.
Proof.
  unfold scanner.functions_of.
  induction (Re.findall _ text) as [|g l IH]; [reflexivity | exact IH].
Qed.

(** X13.  The report a run writes is plain ASCII, whatever the source
    text, the paths and the names hold: every character of the file
    is a printable ASCII character or a newline (the others are
    written as [\u] escapes inside the strings). *)
Theorem report_is_plain_ascii (formatted_time : string) (argv : list string)
    (args : namespace) (p : process) :
  parse_args (drop 1 argv) = inr args ->
  (run (scanner.main formatted_time argv) p).2 = SystemExit 0 ->
  exists content,
    files (run (scanner.main formatted_time argv) p).1 !! out args = Some content
    /\ Py.all_chars Json.plain content = true.
Proof.
  intros Hargs. rewrite (ScannerFacts.main_parsed _ _ _ _ Hargs).
  destruct (files p !! source args) as [text|]; [|discriminate].
  destruct (scanner.export_macro_of text) as [m|]; [|discriminate].
  destruct (Py.int (version args)) as [v|]; [|discriminate].
  destruct (decide (out args ∈ unwritable p)); [discriminate|].
  intros _.
  exists (Json.dumps (Some 3)
            (scanner.data_of v (source args) formatted_time
               (scanner.functions_of m text))).
  split; [apply lookup_insert_eq|].
  apply plain_encode. cbn. rewrite float_free_functions. reflexivity.
Qed.

End JsonFacts.

(* ================================================================= *)
(** ** More on the argument parser of scanner.py *)

Module ArgparseMore.
Import Argparse Samples.

#[local] Arguments String.append !s1 s2 : simpl nomatch.

(** X14.  With the form [--option=value] the value is taken as it
    is, also when it is empty, starts with a dash or holds an equals
    sign.  (The one value set apart is [--], which [argparse] does not
    store as a string.) *)
Theorem equals_form_takes_the_value (v s o : string) :
  v <> "--" -> s <> "--" -> o <> "--" ->
  parse_args ["--version=" +:+ v; "--source=" +:+ s; "--out=" +:+ o]
  = inr (Namespace v s o false).
Proof.
  intros Hv Hs Ho. apply ArgparseFacts.parse_args_inr. cbn [version source out verbose].
  assert (Hvalue : forall x, x <> "--" -> Text x = explicit_value x).
  { intros x Hx. unfold explicit_value.
    destruct (String.eqb_spec x "--"); [contradiction | reflexivity]. }
  rewrite (Hvalue v Hv), (Hvalue s Hs), (Hvalue o Ho).
  vm_compute. reflexivity.
Qed.

Lemma classify_step (s : string) (l : list string) :
  classify (s :: l) =
  if String.eqb s "--" then Some ((Separator, s) :: List.map (fun x => (Arg, x)) l)
  else match parse_optional s, classify l with
       | Some k, Some ks => Some ((k, s) :: ks)
       | _, _ => None
       end.
Proof. reflexivity. Qed.

Lemma consume_source_without_value (kv kx : kind) (v x : string)
    (rest : list (kind * string)) (ns : partial) :
  kx <> Arg ->
  consume ((Opt (Some Version) "--version" None, "--version") :: (kv, v)
           :: (Opt (Some Source) "--source" None, "--source") :: (kx, x) :: rest) ns
  = inl UsageError.
Proof.
  intros Hkx. destruct kv as [| | a o e]; try reflexivity.
  cbn. destruct kx as [| | a o e]; [congruence | reflexivity | reflexivity].
Qed.

(** X15.  In the form [--source value] the value must read as an
    argument: a path that the parser reads as an option (it starts
    with a dash and is not a negative number) or as the separator is
    not taken, and the command line is rejected. *)
Theorem option_like_value_is_rejected (v x o : string) :
  ~ is_argument x ->
  parse_args ["--version"; v; "--source"; x; "--out"; o] = inl UsageError.
Proof.
  intros Hx. unfold parse_args.
  enough (H : parse_namespace ["--version"; v; "--source"; x; "--out"; o]
              = inl UsageError) by (rewrite H; reflexivity).
  unfold parse_namespace.
  rewrite (classify_step "--version"), (classify_step v),
    (classify_step "--source"), (classify_step x).
  change (String.eqb "--version" "--") with false.
  change (String.eqb "--source" "--") with false.
  change (parse_optional "--version")
    with (Some (Opt (Some Version) "--version" None)).
  change (parse_optional "--source")
    with (Some (Opt (Some Source) "--source" None)).
  cbn iota.
  destruct (String.eqb v "--"); [reflexivity|].
  destruct (parse_optional v) as [kv|]; [|reflexivity].
  destruct (String.eqb x "--").
  - apply consume_source_without_value. discriminate.
  - destruct (parse_optional x) as [kx|] eqn:Ex; [|reflexivity].
    assert (Hkx : kx <> Arg) by (intros ->; exact (Hx Ex)).
    destruct (classify ["--out"; o]) as [ks|]; [|reflexivity].
    apply consume_source_without_value. exact Hkx.
Qed.

Lemma consume_stray (n : nat) :
  forall ks ns args, List.length ks <= n ->
    (extras ns = true \/ Exists stray ks) -> consume ks ns <> inr args.
Proof.
  assert (Hfin : forall ns args, extras ns = true -> finish ns <> inr args).
  { intros ns args H. unfold finish. rewrite H.
    destruct (p_version ns), (p_source ns), (p_out ns); discriminate. }
  assert (Hstore : forall a v ns, extras (store a v ns) = extras ns)
    by (intros [] v ns; reflexivity).
  induction n as [|n IH]; intros ks ns args Hlen Hbad.
  - destruct ks; [|cbn in Hlen; lia]. cbn.
    destruct Hbad as [H|H]; [auto | inversion H].
  - destruct ks as [|[k s] ks].
    { cbn. destruct Hbad as [H|H]; [auto | inversion H]. }
    cbn in Hlen.
    assert (Hrec : forall ns', extras ns' = true \/ Exists stray ks ->
                     consume ks ns' <> inr args).
    { intros ns'. apply IH. lia. }
    assert (Htail : forall ns', extras ns' = extras ns ->
                      ~ stray (k, s) -> consume ks ns' <> inr args).
    { intros ns' He Hk. apply Hrec. destruct Hbad as [H|H].
      - left. congruence.
      - right. inversion H; subst; [contradiction | assumption]. }
    destruct k as [| | [a|] o e]; cbn;
      [apply Hrec; left; reflexivity | apply Hrec; left; reflexivity | |
       apply Hrec; left; reflexivity].
    assert (Hk : ~ stray (Opt (Some a) o e, s)).
    { intros [H|(o' & e' & H)]; discriminate H. }
    destruct (takes_value a).
    + destruct e as [v|]; [apply Htail; auto|].
      destruct ks as [|[[| |] v] ks']; try discriminate.
      apply IH; [cbn in Hlen; lia|].
      destruct Hbad as [H|H]; [left; rewrite Hstore; exact H|].
      right. inversion H as [? ? H1|? ? H1]; subst; [contradiction|].
      inversion H1 as [? ? H2|? ? H2]; subst; [|assumption].
      destruct H2 as [H2|(o' & e' & H2)]; discriminate H2.
    + destruct (match e with None => true | Some _ => _ end); [|discriminate].
      destruct a; try discriminate; apply Htail; auto.
Qed.

Lemma classify_keeps (l : list string) :
  forall ks s k, classify l = Some ks -> In s l -> parse_optional s = Some k ->
    In (k, s) ks \/ exists x, In (Separator, x) ks.
Proof.
  induction l as [|y l IH]; intros ks s k Hc Hin Hk; [contradiction|].
  cbn in Hc. destruct (String.eqb y "--").
  - injection Hc as <-. right. exists y. left. reflexivity.
  - destruct (parse_optional y) as [ky|] eqn:Ey; [|discriminate].
    destruct (classify l) as [ks'|]; [|discriminate]. injection Hc as <-.
    destruct Hin as [->|Hin].
    + left. left. congruence.
    + destruct (IH ks' s k eq_refl Hin Hk) as [H|[x H]].
      * left. right. exact H.
      * right. exists x. right. exact H.
Qed.

(** X16.  An option the parser does not know is never passed over: a
    command line that holds one is not accepted, wherever it stands
    and whatever else is given. *)
Theorem unknown_option_is_never_accepted (arg_strings : list string)
    (s o : string) (e : option string) (args : namespace) :
  In s arg_strings -> parse_optional s = Some (Opt None o e) ->
  parse_args arg_strings <> inr args.
Proof.
  intros Hin Hs Hargs. apply ArgparseFacts.parse_args_inr in Hargs.
  revert Hargs. unfold parse_namespace.
  destruct (classify arg_strings) as [ks|] eqn:Ec; [|discriminate].
  apply (consume_stray (List.length ks)); [lia|]. right.
  apply Exists_exists.
  destruct (classify_keeps _ _ _ _ Ec Hin Hs) as [H|[x H]].
  - exists (Opt None o e, s). split; [apply list_elem_of_In; exact H|].
    right. exists o, e. reflexivity.
  - exists (Separator, x). split; [apply list_elem_of_In; exact H|].
    left. reflexivity.
Qed.

End ArgparseMore.

(* ================================================================= *)
(** ** The further theorems at the sample inputs *)

Module MoreWitnesses.
Import Re Argparse Samples.

Lemma no_macro_error_only_without_macro_witness :
  exists text,
    files sample_process !! "plain.c" = Some text
    /\ (forall pre suf, text = pre +:+ suf ->
          ~ matches_at scanner.macro_pattern pre suf).
Proof.
  apply (ScannerMore.no_macro_error_only_without_macro noon
           (argv_of "3" "plain.c" "o.json")
           (Namespace "3" "plain.c" "o.json" false) sample_process).
  - reflexivity.
  - vm_compute. reflexivity.
Defined.

Lemma discovered_macro_is_the_first_witness :
  exists pre span post,
    foo_source foo_tail = pre +:+ span +:+ post
    /\ after true pre = true
    /\ scanner.is_macro_definition "MYAPI" span
    /\ (forall pre' suf', foo_source foo_tail = pre' +:+ suf' ->
          String.length pre' < String.length pre ->
          ~ matches_at scanner.macro_pattern pre' suf').
Proof.
  apply (ScannerMore.discovered_macro_is_the_first (foo_source foo_tail) "MYAPI").
  vm_compute. reflexivity.
Defined.

Lemma functions_first_then_rest_witness :
  scanner.functions_of "MYAPI" (foo_source foo_tail)
  = scanner.entry [(3, "int x"); (2, "Foo"); (1, "int")]
    :: List.map scanner.entry
         (findall_from (scanner.func_pattern (scanner.escape "MYAPI")) 0 false
            foo_tail).
Proof.
  apply (ScannerMore.functions_first_then_rest "MYAPI" (foo_source foo_tail)
           [(3, "int x"); (2, "Foo"); (1, "int")] (Cursor false 22 foo_tail)).
  vm_compute. reflexivity.
Defined.

Lemma record_fields_are_clean_witness :
  exists name return_type args,
    multi_line_entry
    = VDict [("name", VStr name); ("return_type", VStr return_type);
             ("args", VStr args)]
    /\ name <> EmptyString /\ Py.all_chars Py.isword name = true
    /\ Py.all_chars scanner.type_char return_type = true
    /\ Py.lstrip return_type = return_type /\ Py.rstrip return_type = return_type
    /\ Py.all_chars scanner.not_rparen args = true
    /\ Py.lstrip args = args /\ Py.rstrip args = args.
Proof.
  apply (ScannerMore.record_fields_are_clean "MYAPI" multi_line_source
           multi_line_entry).
  vm_compute. left. reflexivity.
Defined.


Lemma open_errors_in_order_witness :
  run (scanner.main noon ["scanner.py"; "--version=3"; "--source=--"; "--out=o.json"])
      locked_process
  = (locked_process, Uncaught TypeError)
  /\ run (scanner.main noon ["scanner.py"; "--version=3"; "--source=s.c"; "--out=--"])
         locked_process
     = (locked_process, Uncaught TypeError)
  /\ run (scanner.main noon (argv_of "3" "s.c" "ro.json")) locked_process
     = (locked_process, Uncaught (OSError "ro.json")).
Proof.
  split; [|split].
  - refine (proj1 (RunMore.open_errors_in_order noon _
                     (Objects (Text "3") EmptyList (Text "o.json") false)
                     locked_process _) _); reflexivity.
  - refine (proj1 (proj2 (RunMore.open_errors_in_order noon _
                            (Objects (Text "3") (Text "s.c") EmptyList false)
                            locked_process _)
                     "s.c" (foo_source foo_tail) "MYAPI" 3%Z _ _ _ _) _);
      try reflexivity; vm_compute; reflexivity.
  - refine (proj2 (proj2 (RunMore.open_errors_in_order noon _
                            (Objects (Text "3") (Text "s.c") (Text "ro.json") false)
                            locked_process _)
                     "s.c" (foo_source foo_tail) "MYAPI" 3%Z _ _ _ _)
                  "ro.json" _ _);
      try reflexivity; try (vm_compute; reflexivity).
Defined.



Lemma report_is_plain_ascii_witness :
  exists content,
    files (run (scanner.main noon (argv_of "3" "s.c" "o.json")) sample_process).1
      !! "o.json" = Some content
    /\ Py.all_chars Json.plain content = true.
Proof.
  apply (JsonFacts.report_is_plain_ascii noon (argv_of "3" "s.c" "o.json")
           (Namespace "3" "s.c" "o.json" false) sample_process).
  - reflexivity.
  - vm_compute. reflexivity.
Defined.

Lemma equals_form_takes_the_value_witness :
  parse_args ["--version=-x"; "--source=-s.c"; "--out="]
  = inr (Namespace "-x" "-s.c" EmptyString false).
Proof.
  apply (ArgparseMore.equals_form_takes_the_value "-x" "-s.c" EmptyString);
    discriminate.
Defined.

Lemma option_like_value_is_rejected_witness :
  parse_args ["--version"; "3"; "--source"; "-s.c"; "--out"; "o.json"]
  = inl UsageError.
Proof.
  apply (ArgparseMore.option_like_value_is_rejected "3" "-s.c" "o.json").
  intros H. vm_compute in H. discriminate H.
Defined.

Lemma unknown_option_is_never_accepted_witness :
  exists t,
    parse_args ["--version"; "3"; "--source"; "s.c"; "--out"; "o.json"; "--force"]
    = inl t.
Proof.
  destruct (parse_args ["--version"; "3"; "--source"; "s.c"; "--out"; "o.json";
                        "--force"]) as [t|args] eqn:E.
  - exists t. reflexivity.
  - exfalso.
    apply (ArgparseMore.unknown_option_is_never_accepted
             ["--version"; "3"; "--source"; "s.c"; "--out"; "o.json"; "--force"]
             "--force" "--force" None args); [| reflexivity | exact E].
    cbn. tauto.
Defined.

End MoreWitnesses.
